(** * Nickt Lite (src/app.jsx): wallet, bonus, referral and registry logic

    A shallow embedding of the state-changing code of [src/app.jsx]: the
    [read] helper over [localStorage], the [useMiner] accumulator and the
    balance-flush interval, the dashboard handlers (start/stop, withdraw,
    daily bonus), [claimDaily], [handleRegister], [handleLogin] and [logout].

    Conventions of the embedding:
    - a JavaScript number that holds an amount (balance, hashrate, earned) is
      a rational [Q]; sums of amounts are compared with [==]. Rounding of
      IEEE doubles is outside the model;
    - a timestamp ([Date.now()], [lastBonus], [createdAt]) is a [Z] count of
      milliseconds;
    - [now()] and [uid()] read the environment: every handler takes the values
      they return as arguments, one argument per call in the source;
    - a string is the sequence of bytes of its UTF-8 encoding;
      [String.prototype.trim] is defined on it, and
      [String.prototype.toLowerCase], which needs the case tables of
      Unicode, is a parameter ([CaseFolding]);
    - [alert(...)] is returned as a value of type [Alert]; toasts, rendering
      and animation are not modelled. *)

From Stdlib Require Import ZArith QArith Lqa Lia String Ascii List Bool.
From stdpp Require Import gmap strings.
Import ListNotations.

Local Open Scope string_scope.

(** ** Strings *)

Module Str.

(** [!s] for a string: only the empty string is falsy. *)
Definition isEmpty (s : string) : bool :=
  match s with
  | EmptyString => true
  | String _ _ => false
  end.

(** A string is the sequence of bytes of its UTF-8 encoding. The white
    space and line terminators that [String.prototype.trim] removes, by the
    length of their encoding:
    - one byte: U+0009 to U+000D and U+0020;
    - two bytes: U+00A0 (C2 A0);
    - three bytes: U+1680 (E1 9A 80), U+2000 to U+200A (E2 80 80 to 8A),
      U+2028, U+2029 (E2 80 A8, A9), U+202F (E2 80 AF), U+205F (E2 81 9F),
      U+3000 (E3 80 80) and U+FEFF (EF BB BF). *)
Definition space1 (a : ascii) : bool :=
  let n := nat_of_ascii a in
  ((9 <=? n)%nat && (n <=? 13)%nat) || (n =? 32)%nat.

Definition space2 (a b : ascii) : bool :=
  (nat_of_ascii a =? 194)%nat && (nat_of_ascii b =? 160)%nat.

Definition space3 (a b c : ascii) : bool :=
  let x := nat_of_ascii a in
  let y := nat_of_ascii b in
  let z := nat_of_ascii c in
  ((x =? 225) && (y =? 154) && (z =? 128))%nat
  || ((x =? 226) && (y =? 128)
      && ((128 <=? z) && (z <=? 138) || (z =? 168) || (z =? 169) || (z =? 175)))%nat
  || ((x =? 226) && (y =? 129) && (z =? 159))%nat
  || ((x =? 227) && (y =? 128) && (z =? 128))%nat
  || ((x =? 239) && (y =? 187) && (z =? 191))%nat.

(** Removes from the head of a list of bytes every sequence of one, two or
    three bytes that the given tests accept. *)
Fixpoint dropHead (p1 : ascii -> bool) (p2 : ascii -> ascii -> bool)
    (p3 : ascii -> ascii -> ascii -> bool) (l : list ascii) : list ascii :=
  match l with
  | [] => []
  | a :: l1 =>
      if p1 a then dropHead p1 p2 p3 l1
      else
        match l1 with
        | [] => l
        | b :: l2 =>
            if p2 a b then dropHead p1 p2 p3 l2
            else
              match l2 with
              | [] => l
              | c :: l3 => if p3 a b c then dropHead p1 p2 p3 l3 else l
              end
        end
  end.

Definition trimStartBytes (l : list ascii) : list ascii :=
  dropHead space1 space2 space3 l.

(** At the end the encodings are met last byte first. *)
Definition trimEndBytes (l : list ascii) : list ascii :=
  rev (dropHead space1 (fun b a => space2 a b) (fun c b a => space3 a b c)
         (rev l)).

Definition trimStart (s : string) : string :=
  string_of_list_ascii (trimStartBytes (list_ascii_of_string s)).

Definition trimEnd (s : string) : string :=
  string_of_list_ascii (trimEndBytes (list_ascii_of_string s)).

(** [String.prototype.trim] *)
Definition trim (s : string) : string :=
  string_of_list_ascii
    (trimEndBytes (trimStartBytes (list_ascii_of_string s))).

(** [String.prototype.toLowerCase] on a string of ASCII characters, where it
    turns [A-Z] into [a-z] and keeps the rest. The examples run on it. *)
Definition lowerChar (c : ascii) : ascii :=
  let n := nat_of_ascii c in
  if (65 <=? n)%nat && (n <=? 90)%nat then ascii_of_nat (n + 32) else c.

Fixpoint asciiLowerCase (s : string) : string :=
  match s with
  | EmptyString => EmptyString
  | String c s' => String (lowerChar c) (asciiLowerCase s')
  end.

(** No accepted sequence at the head of the list. *)
Definition headFree (p1 : ascii -> bool) (p2 : ascii -> ascii -> bool)
    (p3 : ascii -> ascii -> ascii -> bool) (l : list ascii) : bool :=
  match l with
  | [] => true
  | a :: l1 =>
      negb (p1 a)
      && match l1 with
         | [] => true
         | b :: l2 =>
             negb (p2 a b)
             && match l2 with
                | [] => true
                | c :: _ => negb (p3 a b c)
                end
         end
  end.

End Str.

(** [String.prototype.toLowerCase] applies the case mapping of the Unicode
    tables of the platform: the registry takes it as a parameter. *)
Class CaseFolding := { toLowerCase : string -> string }.


(** ** Persistent storage (app.jsx, lines 39-54) *)

Module LocalStorage.

Section Codec.

(** The values the application stores, and the two JSON functions of the
    platform. [JSON_parse s = None] stands for [JSON.parse] throwing. *)
Context {V : Type}.
Variable JSON_parse : string -> option V.
Variable JSON_stringify : V -> string.

Definition getItem (ls : gmap string string) (k : string) : option string :=
  ls !! k.

(** [const read = (k, d) => { try { const v = localStorage.getItem(k);
      return v ? JSON.parse(v) : d; } catch { return d; } }] *)
Definition read (ls : gmap string string) (k : string) (d : V) : V :=
  match getItem ls k with
  | None => d
  | Some v =>
      if Str.isEmpty v then d
      else match JSON_parse v with
           | Some x => x
           | None => d
           end
  end.

(** [const write = (k, v) => localStorage.setItem(k, JSON.stringify(v))] *)
Definition write (k : string) (v : V) (ls : gmap string string)
  : gmap string string :=
  <[k := JSON_stringify v]> ls.

(** What [read] can see of a store: per key, the value its text decodes to,
    when it has one. The registry below works on this view of the
    [wallet.<id>] entries. *)
Definition decoded (ls : gmap string string) : gmap string V :=
  omap (fun v => if Str.isEmpty v then None else JSON_parse v) ls.

End Codec.

(** A parser for the JSON literals [null], [true] and [false], to run [read]
    on concrete stores. *)
Inductive Literal := LNull | LBool (b : bool).

Definition parseLiteral (s : string) : option Literal :=
  if String.eqb s "null" then Some LNull
  else if String.eqb s "true" then Some (LBool true)
  else if String.eqb s "false" then Some (LBool false)
  else None.

Definition sampleStore : gmap string string :=
  <["app.session" := "null"]>
    (<["app.flag" := "true"]> (<["app.users" := "[{]"]> ∅)).

End LocalStorage.

(** ** Alerts

    The five [alert(...)] calls of the application, named after the error
    conditions of the specification. *)
Inductive Alert :=
| MissingField                (* "Lengkapi semua field." *)
| DuplicateEmail              (* "Email sudah terdaftar." *)
| EmptyEmail                  (* "Masukkan email." *)
| NotFound                    (* "Akun tidak ditemukan." *)
| TooSoon (h m : Z).          (* "Tunggu ${h}j ${m}m lagi." *)

(** ** The wallet (app.jsx, lines 132-139) *)

Record Wallet := mkWallet {
  balance : Q;
  totalMined : Q;
  lastBonus : Z;
  hashrate : Q;
  mining : bool;
  boosts : Q
}.

(** The object literal used as default by [read] and written by
    [handleRegister]. *)
Definition newWallet : Wallet :=
  {| balance := 0; totalMined := 0; lastBonus := 0;
     hashrate := 12.5; mining := false; boosts := 1 |}.

(** [const DAY = 24 * 60 * 60 * 1000;] *)
Definition DAY : Z := 24 * 60 * 60 * 1000.

(** ** The simulated miner (app.jsx, lines 56-75)

    [useMiner] keeps the React state [earned] and the ref [lastRef]. *)

Record Miner := mkMiner {
  earned : Q;
  lastRef : Z
}.

(** The callback of the 1000 ms interval:
    [const tnow = now(); const dt = (tnow - lastRef.current) / 1000;
     lastRef.current = tnow;
     const rate = (baseHash * boost) / 1_000_000_000;
     setEarned((e) => e + dt * rate);] *)
Definition useMiner_tick (baseHash boost : Q) (tnow : Z) (m : Miner) : Miner :=
  let dt := (inject_Z (tnow - lastRef m) / 1000)%Q in
  let rate := ((baseHash * boost) / 1000000000)%Q in
  {| earned := (earned m + dt * rate)%Q; lastRef := tnow |}.

(** The effect on [active]: [lastRef.current = now();] *)
Definition useMiner_reset (t : Z) (m : Miner) : Miner :=
  {| earned := earned m; lastRef := t |}.

(** The updater of the 3000 ms interval of [App] (lines 162-172), with the
    [earned] of the render that created the interval:
    [(w) => { if (!w) return w; const add = earned;
       return { ...w, balance: w.balance + add,
                totalMined: w.totalMined + add }; }] *)
Definition flushEarned (earned : Q) (w : option Wallet) : option Wallet :=
  match w with
  | None => None
  | Some w =>
      let add := earned in
      Some {| balance := (balance w + add)%Q;
              totalMined := (totalMined w + add)%Q;
              lastBonus := lastBonus w; hashrate := hashrate w;
              mining := mining w; boosts := boosts w |}
  end.

(** ** Dashboard handlers (app.jsx, lines 436-468) *)

(** Stop / Mulai Mining: [setWallet({ ...wallet, mining: b })]. *)
Definition setMining (b : bool) (wallet : Wallet) : Wallet :=
  {| balance := balance wallet; totalMined := totalMined wallet;
     lastBonus := lastBonus wallet; hashrate := hashrate wallet;
     mining := b; boosts := boosts wallet |}.

(** Withdraw (demo): [setWallet({ ...wallet, balance: 0 })]. *)
Definition withdraw (wallet : Wallet) : Wallet :=
  {| balance := 0; totalMined := totalMined wallet;
     lastBonus := lastBonus wallet; hashrate := hashrate wallet;
     mining := mining wallet; boosts := boosts wallet |}.

(** Klaim Sekarang, the button of the Bonus Harian card. [t1] and [t2] are
    the two readings of [now()], in order. *)
Definition klaimSekarang (t1 t2 : Z) (wallet : Wallet) : option Alert * Wallet :=
  let left := (t1 - lastBonus wallet)%Z in
  if (left <? DAY)%Z then
    let remain := (DAY - left)%Z in
    let h := (remain / 3600000)%Z in
    let m := (Z.rem remain 3600000 / 60000)%Z in
    (Some (TooSoon h m), wallet)
  else
    (None,
     {| balance := (balance wallet + 0.005)%Q; totalMined := totalMined wallet;
        lastBonus := t2; hashrate := hashrate wallet;
        mining := mining wallet; boosts := boosts wallet |}).

(** [claimDaily] of [App] (lines 232-242), on the [wallet] state, which is
    [null] while nobody is logged in. [t1], [t2], [t3] are its readings of
    [now()]: in the test, in [left], and in the updater. *)
Definition claimDaily (t1 t2 t3 : Z) (wallet : option Wallet)
  : option Alert * option Wallet :=
  match wallet with
  | None => (None, None)
  | Some w =>
      if (t1 - lastBonus w <? DAY)%Z then
        let left := (DAY - (t2 - lastBonus w))%Z in
        let h := (left / 3600000)%Z in
        let m := (Z.rem left 3600000 / 60000)%Z in
        (Some (TooSoon h m), Some w)
      else
        (None,
         Some {| balance := (balance w + 0.005)%Q; totalMined := totalMined w;
                 lastBonus := t3; hashrate := hashrate w;
                 mining := mining w; boosts := boosts w |})
  end.

(** ** Wallet objects in storage

    Every wallet the application writes has the six fields; the one
    exception is the object [{ balance: 0 }] that [handleRegister] makes up
    for a referrer without a stored wallet. *)
Inductive WalletObj :=
| AllFields (w : Wallet)
| BalanceOnly (b : Q).

(** [rw.balance || 0]: a zero balance is falsy. *)
Definition orZero (b : Q) : Q := if Qeq_bool b 0 then 0%Q else b.

(** [rw.balance = (rw.balance || 0) + 0.01;] on a wallet with all fields. *)
Definition creditWallet (w : Wallet) : Wallet :=
  {| balance := (orZero (balance w) + 0.01)%Q; totalMined := totalMined w;
     lastBonus := lastBonus w; hashrate := hashrate w;
     mining := mining w; boosts := boosts w |}.

Definition creditReferral (rw : WalletObj) : WalletObj :=
  match rw with
  | AllFields w => AllFields (creditWallet w)
  | BalanceOnly b => BalanceOnly (orZero b + 0.01)%Q
  end.

Definition objBalance (rw : WalletObj) : Q :=
  match rw with
  | AllFields w => balance w
  | BalanceOnly b => b
  end.

(** [rw.totalMined], [undefined] on an object without the field. *)
Definition objTotalMined (rw : WalletObj) : option Q :=
  match rw with
  | AllFields w => Some (totalMined w)
  | BalanceOnly _ => None
  end.

(** ** One wallet under the events of the application

    The wallet of a user together with the miner of [App], and the events
    that change them. *)

Record Dash := mkDash {
  wallet : Wallet;
  miner : Miner
}.

Inductive Event :=
| Tick (tnow : Z)             (* the 1000 ms interval of useMiner fires *)
| Flush                       (* the 3000 ms interval of App fires *)
| MulaiMining (t : Z)         (* click; t is now() in the effect on active *)
| Stop (t : Z)
| Withdraw
| KlaimSekarang (t1 t2 : Z)
| ReferralBonus.              (* a registration names this user *)

(** [useMiner(wallet?.mining, wallet?.hashrate, wallet?.boosts)]: the tick
    interval exists only while [active]; each button is rendered only in the
    state it leaves. *)
Definition step (e : Event) (s : Dash) : Dash :=
  match e with
  | Tick tnow =>
      if mining (wallet s)
      then {| wallet := wallet s;
              miner := useMiner_tick (hashrate (wallet s)) (boosts (wallet s))
                                     tnow (miner s) |}
      else s
  | Flush =>
      match flushEarned (earned (miner s)) (Some (wallet s)) with
      | Some w => {| wallet := w; miner := miner s |}
      | None => s
      end
  | MulaiMining t =>
      if mining (wallet s) then s
      else {| wallet := setMining true (wallet s);
              miner := useMiner_reset t (miner s) |}
  | Stop t =>
      if mining (wallet s)
      then {| wallet := setMining false (wallet s);
              miner := useMiner_reset t (miner s) |}
      else s
  | Withdraw => {| wallet := withdraw (wallet s); miner := miner s |}
  | KlaimSekarang t1 t2 =>
      {| wallet := snd (klaimSekarang t1 t2 (wallet s)); miner := miner s |}
  | ReferralBonus => {| wallet := creditWallet (wallet s); miner := miner s |}
  end.

Definition run (es : list Event) (s : Dash) : Dash :=
  fold_left (fun s e => step e s) es s.

(** [useState(0)], [useRef(now())] and the wallet written at registration. *)
Definition initDash (t0 : Z) : Dash :=
  {| wallet := newWallet; miner := {| earned := 0; lastRef := t0 |} |}.

(** The clock does not run backwards between two readings of the miner: the
    elapsed time of a tick is not negative. *)
Definition admissible (e : Event) (s : Dash) : bool :=
  match e with
  | Tick tnow => (lastRef (miner s) <=? tnow)%Z
  | _ => true
  end.

Inductive reachable : Dash -> Prop :=
| reach_init (t0 : Z) : reachable (initDash t0)
| reach_step (s : Dash) (e : Event) :
    reachable s -> admissible e s = true -> reachable (step e s).

(** What every reachable state satisfies (proved below). *)
Definition inv (s : Dash) : Prop :=
  (0 <= balance (wallet s) /\ 0 <= totalMined (wallet s) /\
   0 <= earned (miner s) /\
   0 <= hashrate (wallet s) /\ 0 <= boosts (wallet s))%Q.

(** From the specification's words, for comparison with the code: the
    amount accrued over [d] seconds is
    [d * hashrate * boosts * rate_constant]. *)
Definition spec_accrual (d h b : Q) : Q := (d * h * b * (1 / 1000000000))%Q.

(** ** Identity registry (app.jsx, lines 124-130, 180-230) *)

Module User.
Record t := mk {
  id : string;
  name : string;
  email : string;
  referrer : option string;
  createdAt : Z
}.
End User.

(** [{ uid: id }] *)
Record Session := mkSession { uid : string }.

(** The state [handleRegister], [handleLogin] and [logout] act on: the React
    states [users] and [session], the [wallet.<id>] entries of localStorage
    as [read] decodes them, and the location hash set by [push]. *)
Record App := mkApp {
  users : list User.t;
  session : option Session;
  wallets : gmap string WalletObj;
  hash : string
}.

(** [KEYS.wallet = (uid) => `wallet.${uid}`] *)
Definition KEYS_wallet (uid : string) : string := "wallet." ++ uid.

(** [(fd.get(...) || "").toString()], for a field that is a string or
    missing. *)
Definition field (v : option string) : string := default "" v.

Record RegisterForm := mkRegisterForm {
  fd_name : option string;
  fd_email : option string;
  fd_password : option string;
  fd_ref : option string
}.

(** [u.email.toLowerCase() === email.toLowerCase()] *)
Definition sameEmail {CF : CaseFolding} (email : string) (u : User.t) : bool :=
  String.eqb (toLowerCase (User.email u)) (toLowerCase email).

(** [u.name === ref || u.email === ref || u.id === ref] *)
Definition isReferrer (ref : string) (u : User.t) : bool :=
  String.eqb (User.name u) ref
  || String.eqb (User.email u) ref
  || String.eqb (User.id u) ref.

(** The referral block of [handleRegister] (lines 203-212):
    [if (ref) { const refUser = newUsers.find(...);
       if (refUser) { const wk = KEYS.wallet(refUser.id);
         const rw = read(wk, null) || { balance: 0 };
         rw.balance = (rw.balance || 0) + 0.01; write(wk, rw); } }] *)
Definition referralReward (ref : string) (newUsers : list User.t)
    (ws : gmap string WalletObj) : gmap string WalletObj :=
  if Str.isEmpty ref then ws
  else
    match find (isReferrer ref) newUsers with
    | None => ws
    | Some refUser =>
        let wk := KEYS_wallet (User.id refUser) in
        let rw := default (BalanceOnly 0) (ws !! wk) in
        <[wk := creditReferral rw]> ws
    end.

(** [handleRegister]; [id] is the value of [uid()] and [t] that of [now()]. *)
Definition handleRegister {CF : CaseFolding} (fd : RegisterForm) (id : string) (t : Z) (a : App)
  : option Alert * App :=
  let name := Str.trim (field (fd_name fd)) in
  let email := Str.trim (field (fd_email fd)) in
  let pass := field (fd_password fd) in
  let ref := Str.trim (field (fd_ref fd)) in
  if Str.isEmpty name || Str.isEmpty email || Str.isEmpty pass
  then (Some MissingField, a)
  else if existsb (sameEmail email) (users a)
  then (Some DuplicateEmail, a)
  else
    let newUser :=
      User.mk id name email (if Str.isEmpty ref then None else Some ref) t in
    let newUsers := (users a ++ [newUser])%list in
    let ws := <[KEYS_wallet id := AllFields newWallet]> (wallets a) in
    (None,
     {| users := newUsers;
        session := Some {| uid := id |};
        wallets := referralReward ref newUsers ws;
        hash := "#/dashboard" |}).

(** [handleLogin] *)
Definition handleLogin {CF : CaseFolding} (fd_email : option string) (a : App)
  : option Alert * App :=
  let email := Str.trim (field fd_email) in
  if Str.isEmpty email then (Some EmptyEmail, a)
  else
    match find (sameEmail email) (users a) with
    | None => (Some NotFound, a)
    | Some u =>
        (None,
         {| users := users a; session := Some {| uid := User.id u |};
            wallets := wallets a; hash := "#/dashboard" |})
    end.

(** [logout] *)
Definition logout (a : App) : App :=
  {| users := users a; session := None; wallets := wallets a;
     hash := "#/home" |}.

(** [const me = users.find((u) => u.id === session?.uid);] *)
Definition me (a : App) : option User.t :=
  match session a with
  | None => None
  | Some s => find (fun u => String.eqb (User.id u) (uid s)) (users a)
  end.

(** The values of a registration as the handler names them. *)
Definition reg_name (fd : RegisterForm) : string := Str.trim (field (fd_name fd)).
Definition reg_email (fd : RegisterForm) : string := Str.trim (field (fd_email fd)).
Definition reg_pass (fd : RegisterForm) : string := field (fd_password fd).
Definition reg_ref (fd : RegisterForm) : string := Str.trim (field (fd_ref fd)).

(** A registration that passes both checks of [handleRegister]. *)
Definition accepted {CF : CaseFolding} (fd : RegisterForm) (a : App) : bool :=
  negb (Str.isEmpty (reg_name fd) || Str.isEmpty (reg_email fd)
        || Str.isEmpty (reg_pass fd))
  && negb (existsb (sameEmail (reg_email fd)) (users a)).

(** [uid()] returned an id that no registered user has. *)
Definition freshId (id : string) (us : list User.t) : bool :=
  forallb (fun u => negb (String.eqb (User.id u) id)) us.

(** The user record [handleRegister] builds. *)
Definition newUserOf (fd : RegisterForm) (id : string) (t : Z) : User.t :=
  User.mk id (reg_name fd) (reg_email fd)
          (if Str.isEmpty (reg_ref fd) then None else Some (reg_ref fd)) t.

(** The balance held under a wallet key, [0] when there is none. *)
Definition balanceAt (ws : gmap string WalletObj) (k : string) : Q :=
  objBalance (default (BalanceOnly 0) (ws !! k)).

(** ** Sample data *)

Module Sample.

(** The case folding of the examples: that of the platform on ASCII text,
    which is all the sample data holds. *)
#[global] Instance asciiFolding : CaseFolding | 100 :=
  {| toLowerCase := Str.asciiLowerCase |}.

Definition form (n e p r : string) : RegisterForm :=
  {| fd_name := Some n; fd_email := Some e; fd_password := Some p;
     fd_ref := Some r |}.

Definition ani : User.t := User.mk "k3x9a1bc" "Ani" "ani@mail.com" None 1000.
Definition budi : User.t := User.mk "p0q7z2de" "Budi" "budi@mail.com" None 2000.
(* a second user called Ani *)
Definition ani2 : User.t := User.mk "m5n6o7pq" "Ani" "ani2@mail.com" None 3000.

Definition empty : App :=
  {| users := []; session := None; wallets := ∅; hash := "#/reg" |}.

Definition one : App :=
  {| users := [ani]; session := None;
     wallets := <[KEYS_wallet "k3x9a1bc" := AllFields newWallet]> ∅;
     hash := "#/reg" |}.

Definition three : App :=
  {| users := [ani; budi; ani2]; session := None;
     wallets :=
       <[KEYS_wallet "m5n6o7pq" := AllFields newWallet]>
         (<[KEYS_wallet "p0q7z2de" := AllFields newWallet]>
            (<[KEYS_wallet "k3x9a1bc" := AllFields newWallet]> ∅));
     hash := "#/reg" |}.

End Sample.

(** ** Storage keys (app.jsx, lines 40-44) *)

Definition KEYS_users : string := "app.users".
Definition KEYS_session : string := "app.session".

(** The printer that goes with [LocalStorage.parseLiteral]. *)
Definition stringifyLiteral (v : LocalStorage.Literal) : string :=
  match v with
  | LocalStorage.LNull => "null"
  | LocalStorage.LBool true => "true"
  | LocalStorage.LBool false => "false"
  end.

(** ** Class names (app.jsx, line 20)

    [const cn = (...c) => c.filter(Boolean).join(" ");] An argument is a
    string or a falsy value that is not a string ([undefined], [false],
    [null]), here [None]. *)
Definition truthy (v : option string) : option string :=
  match v with
  | Some s => if Str.isEmpty s then None else Some s
  | None => None
  end.

Definition cn (c : list (option string)) : string :=
  String.concat " " (omap truthy c).

(** ** The hash router and the referral link (app.jsx, lines 26-37, 121-122,
    174-178, 244-248)

    A string is the sequence of bytes of its UTF-8 encoding. *)

Module Url.

(** [s.split(sep)] for a separator of one character. *)
Fixpoint split (sep : ascii) (s : string) : list string :=
  match s with
  | EmptyString => [EmptyString]
  | String c s' =>
      if Ascii.eqb c sep then EmptyString :: split sep s'
      else match split sep s' with
           | h :: t => String c h :: t
           | [] => [String c EmptyString]
           end
  end.

(** The characters [encodeURIComponent] leaves as they are:
    [A-Z a-z 0-9 - _ . ! ~ * ' ( )]. *)
Definition isUnreserved (c : ascii) : bool :=
  let n := nat_of_ascii c in
  ((65 <=? n) && (n <=? 90) || (97 <=? n) && (n <=? 122)
   || (48 <=? n) && (n <=? 57))%nat
  || existsb (Ascii.eqb c) ["-"; "_"; "."; "!"; "~"; "*"; "'"; "("; ")"]%char.

(** Upper-case hexadecimal digit of [n < 16]. *)
Definition hexDigit (n : nat) : ascii :=
  if (n <? 10)%nat then ascii_of_nat (48 + n) else ascii_of_nat (55 + n).

Definition encodeByte (c : ascii) : string :=
  if isUnreserved c then String c EmptyString
  else
    let n := nat_of_ascii c in
    String "%" (String (hexDigit (n / 16)) (String (hexDigit (n mod 16)) EmptyString)).

(** [encodeURIComponent]: every byte of the UTF-8 encoding that is not
    unreserved becomes [%XX]. *)
Fixpoint encodeURIComponent (s : string) : string :=
  match s with
  | EmptyString => EmptyString
  | String c s' => encodeByte c ++ encodeURIComponent s'
  end.

(** Value of a hexadecimal digit, of either case. *)
Definition unhex (c : ascii) : option nat :=
  let n := nat_of_ascii c in
  if ((48 <=? n) && (n <=? 57))%nat then Some (n - 48)%nat
  else if ((65 <=? n) && (n <=? 70))%nat then Some (n - 55)%nat
  else if ((97 <=? n) && (n <=? 102))%nat then Some (n - 87)%nat
  else None.

(** Percent-decoding of the URL standard: a [%] that two hexadecimal digits
    do not follow is kept. *)
Fixpoint percentDecode (s : string) : string :=
  match s with
  | EmptyString => EmptyString
  | String c s1 =>
      if Ascii.eqb c "%" then
        match s1 with
        | String a (String b s3) =>
            match unhex a, unhex b with
            | Some x, Some y =>
                String (ascii_of_nat (16 * x + y)) (percentDecode s3)
            | _, _ => String c (percentDecode s1)
            end
        | _ => String c (percentDecode s1)
        end
      else String c (percentDecode s1)
  end.

Fixpoint plusToSpace (s : string) : string :=
  match s with
  | EmptyString => EmptyString
  | String c s' =>
      String (if Ascii.eqb c "+" then " "%char else c) (plusToSpace s')
  end.

(** A name-value sequence cut at its first [=]; the value is empty when
    there is none. *)
Fixpoint nameValue (s : string) : string * string :=
  match s with
  | EmptyString => (EmptyString, EmptyString)
  | String c s' =>
      if Ascii.eqb c "=" then (EmptyString, s')
      else let (n, v) := nameValue s' in (String c n, v)
  end.

(** [new URLSearchParams(init)]: the parser of
    application/x-www-form-urlencoded. The final UTF-8 decoding is the
    identity on the bytes, which is what it is on well-formed UTF-8. *)
Definition URLSearchParams (init : string) : list (string * string) :=
  let init := match init with
              | String "?" r => r
              | _ => init
              end in
  map (fun seq => let (n, v) := nameValue seq in
                  (percentDecode (plusToSpace n), percentDecode (plusToSpace v)))
      (filter (fun seq => Str.isEmpty seq = false) (split "&" init)).

(** [params.get(name)]: the value of the first pair of that name. *)
Definition get (name : string) (params : list (string * string))
  : option string :=
  option_map snd (find (fun p => String.eqb (fst p) name) params).

(** Whether the character occurs in the string. *)
Fixpoint contains (c : ascii) (s : string) : bool :=
  match s with
  | EmptyString => false
  | String d s' => Ascii.eqb d c || contains c s'
  end.

(** The fragment of a URL is what follows its first [#]. *)
Fixpoint fragment (url : string) : option string :=
  match url with
  | EmptyString => None
  | String c r => if Ascii.eqb c "#" then Some r else fragment r
  end.

(** [window.location.hash]: [#] and the fragment, or the empty string when
    the URL has no fragment or an empty one. (The browser escapes control
    characters, the space, the double quote, the angle brackets and the
    backquote in a fragment; that is not modelled.) *)
Definition locationHash (url : string) : string :=
  match fragment url with
  | None => ""
  | Some f => if Str.isEmpty f then "" else String "#" f
  end.

(** [window.location.hash || "#/home"] *)
Definition hashState (locationHash : string) : string :=
  if Str.isEmpty locationHash then "#/home" else locationHash.

(** [const path = hash.split("?")[0];] *)
Definition path (hash : string) : string :=
  default "" (split "?" hash !! 0%nat).

(** [new URLSearchParams(hash.split("?")[1] || "")] *)
Definition params (hash : string) : list (string * string) :=
  URLSearchParams (default "" (split "?" hash !! 1%nat)).

(** [params.get("ref") || ""] *)
Definition refFromUrl (hash : string) : string :=
  default "" (get "ref" (params hash)).

(** The effect that pre-fills the referral field:
    [if (path === "#/reg") setRegRef(refFromUrl);] *)
Definition prefill (hash : string) (regRef : string) : string :=
  if String.eqb (path hash) "#/reg" then refFromUrl hash else regRef.

(** [referralLink]: [""] without a current user, else
    [`${base}#/reg?ref=${encodeURIComponent(me.name)}`] with
    [base = window.location.href.split("#")[0]]. *)
Definition referralLink (href : string) (me : option User.t) : string :=
  match me with
  | None => ""
  | Some u =>
      let base := default "" (split "#" href !! 0%nat) in
      base ++ "#/reg?ref=" ++ encodeURIComponent (User.name u)
  end.

End Url.

(** ** The wallet of the current user between storage and state
    (app.jsx, lines 141-157) *)

(** The effect on [me?.id]:
    [if (!me) return; const w = read(KEYS.wallet(me.id), {...}); setWallet(w);]
    [wallet] is the React state, [null] before anybody logged in. *)
Definition loadWallet (a : App) (wallet : option WalletObj) : option WalletObj :=
  match me a with
  | None => wallet
  | Some u =>
      Some (default (AllFields newWallet) (wallets a !! KEYS_wallet (User.id u)))
  end.

(** The effect on [me?.id] and [wallet]:
    [if (!me || !wallet) return; write(KEYS.wallet(me.id), wallet);] *)
Definition persistWallet (a : App) (wallet : option WalletObj)
  : gmap string WalletObj :=
  match me a, wallet with
  | Some u, Some w => <[KEYS_wallet (User.id u) := w]> (wallets a)
  | _, _ => wallets a
  end.

Definition withWallets (ws : gmap string WalletObj) (a : App) : App :=
  {| users := users a; session := session a; wallets := ws; hash := hash a |}.

(** The commit that follows a change of [me?.id]. Both effects run, in the
    order of the source, on the [wallet] of that render; [setWallet(w)] then
    causes a render whose [wallet] is [w], after which the second effect
    runs again. *)
Definition afterSessionChange (a : App) (wallet : option WalletObj)
  : App * option WalletObj :=
  let w := loadWallet a wallet in
  let a1 := withWallets (persistWallet a wallet) a in
  let a2 := withWallets (persistWallet a1 w) a1 in
  (a2, w).

(** ** What [App] renders (app.jsx, lines 254-271)

    The four conditional children of [main]; their conditions on [path]
    exclude one another. *)
Inductive View := VHome | VRegister | VLogin | VDashboard.

Definition view (path : string) (me : option User.t)
    (wallet : option WalletObj) : option View :=
  if String.eqb path "#/home" then Some VHome
  else if String.eqb path "#/reg" then Some VRegister
  else if String.eqb path "#/login" then Some VLogin
  else if String.eqb path "#/dashboard" then
    match me, wallet with
    | Some _, Some _ => Some VDashboard
    | _, _ => None
    end
  else None.

(** The view for a state of the application, [hash] being the location hash
    and [wallet] the React state. *)
Definition screen (a : App) (wallet : option WalletObj) : option View :=
  view (Url.path (Url.hashState (hash a))) (me a) wallet.

(** ** The registry under the actions of the application *)

Inductive Action :=
| Register (fd : RegisterForm) (id : string) (t : Z)
| Login (fd_email : option string)
| Logout
| SaveWallet (w : Wallet).    (* the second effect, for a wallet in memory *)

Definition act {CF : CaseFolding} (x : Action) (a : App) : App :=
  match x with
  | Register fd id t => snd (handleRegister fd id t a)
  | Login fd_email => snd (handleLogin fd_email a)
  | Logout => logout a
  | SaveWallet w => withWallets (persistWallet a (Some (AllFields w))) a
  end.

Definition actions {CF : CaseFolding} (xs : list Action) (a : App) : App :=
  fold_left (fun a x => act x a) xs a.

(** [read(KEYS.users, [])], [read(KEYS.session, null)] on an empty store. *)
Definition initApp : App :=
  {| users := []; session := None; wallets := ∅; hash := "#/home" |}.

(** No two users have the same email up to case. *)
Definition emailsUnique {CF : CaseFolding} (a : App) : Prop :=
  NoDup (map (fun u => toLowerCase (User.email u)) (users a)).

(** Every user has a stored wallet with all six fields. *)
Definition walletsComplete (a : App) : Prop :=
  forall u, u ∈ users a ->
    exists w, wallets a !! KEYS_wallet (User.id u) = Some (AllFields w).

(** Names and emails are not empty and carry no outer white space. *)
Definition usersTrimmed (a : App) : Prop :=
  forall u, u ∈ users a ->
    User.name u <> "" /\ User.email u <> "" /\
    Str.trim (User.name u) = User.name u /\
    Str.trim (User.email u) = User.email u.

(** The session, when there is one, is that of a registered user. *)
Definition sessionRegistered (a : App) : Prop :=
  forall s, session a = Some s -> exists u, me a = Some u /\ User.id u = uid s.

(** * Results *)

(** ** Strings *)

Example trim_example : Str.trim "  Budi Santoso 	" = "Budi Santoso".
Proof. reflexivity. Qed.

Example trim_no_break_space :
  Str.trim (String (ascii_of_nat 194) (String (ascii_of_nat 160) "Ani"))
  = "Ani".
Proof. reflexivity. Qed.

(** U+3000 before, U+00A0 and U+FEFF after; U+200B (E2 80 8B) is not white
    space and stays. *)
Example trim_unicode :
  Str.trim (string_of_list_ascii
              (map ascii_of_nat [227; 128; 128; 66; 226; 128; 139; 194; 160;
                                 239; 187; 191]))
  = string_of_list_ascii (map ascii_of_nat [66; 226; 128; 139]).
Proof. reflexivity. Qed.

Example trim_blank : Str.trim " 	 " = "".
Proof. reflexivity. Qed.

Example toLowerCase_example :
  Str.asciiLowerCase "Ani@Mail.COM" = "ani@mail.com".
Proof. reflexivity. Qed.

Lemma toLowerCase_idempotent (s : string) :
  Str.asciiLowerCase (Str.asciiLowerCase s) = Str.asciiLowerCase s.
Proof.
  induction s as [|c s IH]; simpl; [reflexivity|]. rewrite IH. f_equal.
  unfold Str.lowerChar.
  destruct ((65 <=? nat_of_ascii c)%nat && (nat_of_ascii c <=? 90)%nat) eqn:E.
  - apply andb_true_iff in E as [E1 E2].
    apply Nat.leb_le in E1, E2.
    rewrite nat_ascii_embedding by lia.
    assert ((nat_of_ascii c + 32 <=? 90)%nat = false) as ->
      by (apply Nat.leb_gt; lia).
    rewrite andb_false_r. reflexivity.
  - rewrite E. reflexivity.
Qed.

(** ** Storage *)

Module LocalStorageFacts.
Import LocalStorage.

Section Codec.
Context {V : Type}.
Variable JSON_parse : string -> option V.
Variable JSON_stringify : V -> string.

Lemma read_decoded (ls : gmap string string) (k : string) (d : V) :
  read JSON_parse ls k d = default d (decoded JSON_parse ls !! k).
Proof.
  unfold read, decoded, getItem. rewrite lookup_omap.
  destruct (ls !! k) as [v|]; simpl; [|reflexivity].
  destruct (Str.isEmpty v); [reflexivity|].
  destruct (JSON_parse v); reflexivity.
Qed.

(** Writing a value whose text parses back to it is an insertion in the
    decoded store. *)
Lemma decoded_write (ls : gmap string string) (k : string) (v : V) :
  JSON_stringify v <> "" ->
  JSON_parse (JSON_stringify v) = Some v ->
  decoded JSON_parse (write JSON_stringify k v ls)
  = <[k := v]> (decoded JSON_parse ls).
Proof.
  intros Hne Hrt. unfold decoded, write.
  apply map_eq. intros j. rewrite lookup_omap, !lookup_insert.
  destruct (decide (k = j)) as [->|Hkj]; simpl.
  - destruct (JSON_stringify v); [congruence|]. simpl. exact Hrt.
  - rewrite lookup_omap. reflexivity.
Qed.

(** C9. A read of key [k] with default [d] returns [d] when the key is
    absent, returns [d] when the stored text does not parse (the parser's
    exception is caught), and returns the stored value when the text is a
    well-formed record. [read] is a total function: it never fails. *)
Theorem read_falls_back_to_default
    (ls : gmap string string) (k : string) (d : V) :
  (getItem ls k = None -> read JSON_parse ls k d = d) /\
  (forall v, getItem ls k = Some v -> JSON_parse v = None ->
             read JSON_parse ls k d = d) /\
  (forall v x, getItem ls k = Some v -> v <> "" -> JSON_parse v = Some x ->
               read JSON_parse ls k d = x).
Proof.
  unfold read. repeat split.
  - intros ->. reflexivity.
  - intros v -> Hv. rewrite Hv. destruct (Str.isEmpty v); reflexivity.
  - intros v x -> Hne Hv. rewrite Hv.
    destruct v; [congruence | reflexivity].
Qed.

End Codec.

Lemma read_falls_back_to_default_witness :
  read parseLiteral sampleStore "wallet.x" (LBool false) = LBool false /\
  read parseLiteral sampleStore "app.users" (LBool false) = LBool false /\
  read parseLiteral sampleStore "app.flag" (LBool false) = LBool true.
Proof.
  split; [|split].
  - apply (read_falls_back_to_default parseLiteral sampleStore "wallet.x").
    vm_compute. reflexivity.
  - apply (proj1 (proj2 (read_falls_back_to_default parseLiteral sampleStore
                           "app.users" (LBool false))) "[{]");
      vm_compute; reflexivity.
  - apply (proj2 (proj2 (read_falls_back_to_default parseLiteral sampleStore
                           "app.flag" (LBool false))) "true");
      [vm_compute; reflexivity | discriminate | vm_compute; reflexivity].
Defined.

End LocalStorageFacts.

(** ** Dashboard handlers *)

(** C6. Withdraw sets the balance to 0 whatever it was and keeps
    [totalMined], [lastBonus], [hashrate], [mining] and [boosts]. *)
Theorem withdraw_resets_balance_only (w : Wallet) :
  balance (withdraw w) = 0%Q /\
  totalMined (withdraw w) = totalMined w /\
  lastBonus (withdraw w) = lastBonus w /\
  hashrate (withdraw w) = hashrate w /\
  mining (withdraw w) = mining w /\
  boosts (withdraw w) = boosts w.
Proof. repeat split. Qed.

Lemma withdraw_idempotent (w : Wallet) : withdraw (withdraw w) = withdraw w.
Proof. reflexivity. Qed.

(** Hours and minutes of a positive number of milliseconds. *)
Lemma hours_minutes (left : Z) :
  (0 < left)%Z ->
  let h := (left / 3600000)%Z in
  let m := (Z.rem left 3600000 / 60000)%Z in
  (0 <= h /\ 0 <= m < 60 /\
   h * 3600000 + m * 60000 <= left < h * 3600000 + (m + 1) * 60000)%Z.
Proof.
  intros Hpos h m. subst h m.
  rewrite Z.rem_mod_nonneg by lia.
  pose proof (Z.div_mod left 3600000 ltac:(lia)) as Hd.
  pose proof (Z.mod_pos_bound left 3600000 ltac:(lia)) as Hb.
  pose proof (Z.div_mod (left mod 3600000) 60000 ltac:(lia)) as Hd'.
  pose proof (Z.mod_pos_bound (left mod 3600000) 60000 ltac:(lia)) as Hb'.
  assert (0 <= left / 3600000)%Z by (apply Z.div_pos; lia).
  assert (0 <= left mod 3600000 / 60000)%Z by (apply Z.div_pos; lia).
  repeat split; try lia.
Qed.

(** The two implementations of the daily bonus agree when the clock is read
    once. *)
Lemma claimDaily_klaimSekarang (now : Z) (w : Wallet) :
  claimDaily now now now (Some w)
  = (fst (klaimSekarang now now w), Some (snd (klaimSekarang now now w))).
Proof.
  unfold claimDaily, klaimSekarang.
  destruct (now - lastBonus w <? DAY)%Z; reflexivity.
Qed.

Lemma klaimSekarang_refused (now : Z) (w : Wallet) :
  (now - lastBonus w < DAY)%Z ->
  klaimSekarang now now w
  = (Some (TooSoon ((DAY - (now - lastBonus w)) / 3600000)
                   (Z.rem (DAY - (now - lastBonus w)) 3600000 / 60000)), w).
Proof.
  intros Hlt. unfold klaimSekarang.
  apply Z.ltb_lt in Hlt. rewrite Hlt. reflexivity.
Qed.

Lemma klaimSekarang_granted (now : Z) (w : Wallet) :
  (DAY <= now - lastBonus w)%Z ->
  klaimSekarang now now w
  = (None, mkWallet (balance w + 0.005)%Q (totalMined w) now (hashrate w)
                    (mining w) (boosts w)).
Proof.
  intros Hge. unfold klaimSekarang.
  apply Z.ltb_ge in Hge. rewrite Hge. reflexivity.
Qed.

(** C2. At time [now], the daily bonus (the dashboard button and
    [claimDaily] alike) is refused exactly when [now - lastBonus < 24h]: the
    alert carries the hours [h] and minutes [m] of the remaining wait and the
    wallet is unchanged. Otherwise, so also at exactly 24h and for an unset
    [lastBonus = 0] with [now >= 24h], it succeeds: [lastBonus] becomes
    [now], [balance] grows by 0.005 and no other field changes. *)
Theorem daily_bonus_gate (now : Z) (w : Wallet) :
  ((now - lastBonus w < DAY)%Z ->
   exists h m : Z,
     klaimSekarang now now w = (Some (TooSoon h m), w) /\
     claimDaily now now now (Some w) = (Some (TooSoon h m), Some w) /\
     (0 <= h /\ 0 <= m < 60 /\
      h * 3600000 + m * 60000 <= DAY - (now - lastBonus w)
        < h * 3600000 + (m + 1) * 60000)%Z) /\
  ((DAY <= now - lastBonus w)%Z ->
   exists w' : Wallet,
     klaimSekarang now now w = (None, w') /\
     claimDaily now now now (Some w) = (None, Some w') /\
     lastBonus w' = now /\
     (balance w' == balance w + 0.005)%Q /\
     totalMined w' = totalMined w /\
     hashrate w' = hashrate w /\
     mining w' = mining w /\
     boosts w' = boosts w).
Proof.
  split.
  - intros Hlt. do 2 eexists.
    rewrite claimDaily_klaimSekarang, (klaimSekarang_refused _ _ Hlt).
    repeat split; try reflexivity; apply hours_minutes; lia.
  - intros Hge. eexists.
    rewrite claimDaily_klaimSekarang, (klaimSekarang_granted _ _ Hge).
    simpl. repeat split; reflexivity.
Qed.

Lemma daily_bonus_gate_witness :
  (exists h m : Z,
     klaimSekarang 1700003600000 1700003600000
       (mkWallet 0 0 1700000000000 12.5 false 1)
     = (Some (TooSoon h m), mkWallet 0 0 1700000000000 12.5 false 1) /\
     claimDaily 1700003600000 1700003600000 1700003600000
       (Some (mkWallet 0 0 1700000000000 12.5 false 1))
     = (Some (TooSoon h m), Some (mkWallet 0 0 1700000000000 12.5 false 1)) /\
     (0 <= h /\ 0 <= m < 60 /\
      h * 3600000 + m * 60000
        <= DAY - (1700003600000 - 1700000000000)
        < h * 3600000 + (m + 1) * 60000)%Z) /\
  (exists w' : Wallet,
     klaimSekarang 1700086400000 1700086400000
       (mkWallet 0 0 1700000000000 12.5 false 1) = (None, w') /\
     claimDaily 1700086400000 1700086400000 1700086400000
       (Some (mkWallet 0 0 1700000000000 12.5 false 1)) = (None, Some w') /\
     lastBonus w' = 1700086400000%Z /\
     (balance w' == 0 + 0.005)%Q /\
     totalMined w' = 0%Q /\
     hashrate w' = 12.5%Q /\
     mining w' = false /\
     boosts w' = 1%Q).
Proof.
  split.
  - apply (proj1 (daily_bonus_gate 1700003600000
                    (mkWallet 0 0 1700000000000 12.5 false 1))).
    vm_compute. reflexivity.
  - apply (proj2 (daily_bonus_gate 1700086400000
                    (mkWallet 0 0 1700000000000 12.5 false 1))).
    vm_compute. discriminate.
Defined.

(** A first claim on a new wallet ([lastBonus = 0]) succeeds at any time
    24h or more after the epoch. *)
Lemma first_claim_succeeds (now : Z) :
  (DAY <= now)%Z -> fst (klaimSekarang now now newWallet) = None.
Proof.
  intros H. rewrite klaimSekarang_granted; [reflexivity|].
  simpl. lia.
Qed.

(** Right after a successful claim the next one is refused, and 24h later it
    is granted again. *)
Lemma second_claim_refused (now : Z) (w : Wallet) :
  (DAY <= now - lastBonus w)%Z ->
  exists h m,
    klaimSekarang now now (snd (klaimSekarang now now w))
    = (Some (TooSoon h m), snd (klaimSekarang now now w)).
Proof.
  intros H. rewrite (klaimSekarang_granted _ _ H). simpl.
  do 2 eexists. apply klaimSekarang_refused. simpl. unfold DAY. lia.
Qed.

(** ** The miner and the flush *)

Lemma orZero_eq (b : Q) : (orZero b == b)%Q.
Proof.
  unfold orZero. destruct (Qeq_bool b 0) eqn:E; [|reflexivity].
  apply Qeq_bool_iff in E. symmetry. exact E.
Qed.

(** One tick adds what the specification says for the time since the last
    reading, and moves the cursor to the reading it used. *)
Lemma useMiner_tick_accrues (h b : Q) (tnow : Z) (m : Miner) :
  (earned (useMiner_tick h b tnow m)
   == earned m + spec_accrual (inject_Z (tnow - lastRef m) / 1000) h b)%Q /\
  lastRef (useMiner_tick h b tnow m) = tnow.
Proof.
  split; [|reflexivity]. unfold useMiner_tick, spec_accrual. simpl. field.
Qed.

(** Two ticks in a row add as much to [earned] as one tick over the whole
    interval: the accumulator of [useMiner] counts every interval once. *)
Lemma useMiner_tick_additive (h b : Q) (t1 t2 : Z) (m : Miner) :
  (earned (useMiner_tick h b t2 (useMiner_tick h b t1 m))
   == earned (useMiner_tick h b t2 m))%Q.
Proof.
  unfold useMiner_tick. simpl.
  unfold Z.sub. rewrite !inject_Z_plus, !inject_Z_opp. field.
Qed.

Lemma useMiner_tick_nonneg (h b : Q) (tnow : Z) (m : Miner) :
  (0 <= h)%Q -> (0 <= b)%Q -> (lastRef m <= tnow)%Z ->
  (earned m <= earned (useMiner_tick h b tnow m))%Q.
Proof.
  intros Hh Hb Ht. unfold useMiner_tick. simpl.
  assert (0 <= inject_Z (tnow - lastRef m) / 1000)%Q as Hdt.
  { apply Qle_shift_div_l; [reflexivity|].
    rewrite Qmult_0_l. rewrite <- (Zle_Qle 0). lia. }
  assert (0 <= h * b / 1000000000)%Q as Hr.
  { apply Qle_shift_div_l; [reflexivity|].
    rewrite Qmult_0_l. apply Qmult_le_0_compat; assumption. }
  pose proof (Qmult_le_0_compat _ _ Hdt Hr). lra.
Qed.

(** The bound on the clock matters: a reading earlier than the cursor makes
    the elapsed time, and with it the increment, negative. *)
Lemma useMiner_tick_clock_set_back :
  (earned (useMiner_tick 12.5 1 0 {| earned := 0; lastRef := 1000 |}) < 0)%Q.
Proof. reflexivity. Qed.

(** Each firing of the flush interval adds the whole of [earned], which is
    never reset: two firings add it twice. *)
Lemma flush_twice (s : Dash) :
  (balance (wallet (step Flush (step Flush s)))
   == balance (wallet s) + 2 * earned (miner s))%Q /\
  (totalMined (wallet (step Flush (step Flush s)))
   == totalMined (wallet s) + 2 * earned (miner s))%Q.
Proof. simpl. split; ring. Qed.

(** C1 (the code departs from it). Mining starts at time 0, the miner ticks
    once after 1000 ms, mining stops, and the flush interval fires twice.
    One second was mined, for which the specification gives
    [1 * 12.5 * 1 / 10^9]; the wallet received twice that, in [balance] and
    in [totalMined]. *)
Theorem flush_counts_earned_twice :
  let s := run [MulaiMining 0; Tick 1000; Stop 1000; Flush; Flush] (initDash 0) in
  (earned (miner s) == spec_accrual 1 12.5 1)%Q /\
  (balance (wallet s) == 2 * spec_accrual 1 12.5 1)%Q /\
  (totalMined (wallet s) == 2 * spec_accrual 1 12.5 1)%Q /\
  ~ (balance (wallet s) == spec_accrual 1 12.5 1)%Q.
Proof. vm_compute. repeat split; discriminate. Qed.

(** While the tick interval keeps firing and no flush happens, nothing
    reaches the wallet. *)
Lemma tick_leaves_wallet (tnow : Z) (s : Dash) :
  wallet (step (Tick tnow) s) = wallet s.
Proof. simpl. destruct (mining (wallet s)); reflexivity. Qed.

(** ** Invariant of the wallet *)

Lemma inv_init (t0 : Z) : inv (initDash t0).
Proof. unfold inv. simpl. repeat split; discriminate. Qed.

Lemma inv_step (e : Event) (s : Dash) :
  inv s -> admissible e s = true -> inv (step e s).
Proof.
  intros (Hb & Ht & He & Hh & Hbo) Ha. unfold inv.
  destruct e as [tnow| |t|t| |t1 t2|]; simpl in *.
  - destruct (mining (wallet s)); simpl; repeat split; try assumption.
    apply Z.leb_le in Ha.
    pose proof (useMiner_tick_nonneg _ _ tnow (miner s) Hh Hbo Ha) as H.
    unfold useMiner_tick in H. simpl in H. lra.
  - repeat split; try assumption; lra.
  - destruct (mining (wallet s)); simpl; repeat split; assumption.
  - destruct (mining (wallet s)); simpl; repeat split; assumption.
  - repeat split; try assumption. lra.
  - unfold klaimSekarang.
    destruct (t1 - lastBonus (wallet s) <? DAY)%Z; simpl;
      repeat split; try assumption. lra.
  - repeat split; try assumption.
    pose proof (orZero_eq (balance (wallet s))). lra.
Qed.

Lemma reachable_inv (s : Dash) : reachable s -> inv s.
Proof.
  induction 1 as [t0 | s e _ IH Ha].
  - apply inv_init.
  - apply inv_step; assumption.
Qed.





(** ** Registration and login *)

Lemma isEmpty_true (s : string) : Str.isEmpty s = true <-> s = "".
Proof. destruct s; simpl; split; congruence. Qed.

Lemma isEmpty_false (s : string) : Str.isEmpty s = false <-> s <> "".
Proof. destruct s; simpl; split; congruence. Qed.

Lemma KEYS_wallet_inj (a b : string) : KEYS_wallet a = KEYS_wallet b -> a = b.
Proof. unfold KEYS_wallet. cbv [String.append]. congruence. Qed.

Lemma sameEmail_true {CF : CaseFolding} (email : string) (u : User.t) :
  sameEmail email u = true
  <-> toLowerCase (User.email u) = toLowerCase email.
Proof. unfold sameEmail. apply String.eqb_eq. Qed.

Lemma existsb_sameEmail {CF : CaseFolding} (email : string) (us : list User.t) :
  existsb (sameEmail email) us = true
  <-> exists u, u ∈ us /\ toLowerCase (User.email u) = toLowerCase email.
Proof.
  rewrite existsb_exists. split; intros (u & Hu & E); exists u.
  - split; [apply list_elem_of_In, Hu | apply sameEmail_true, E].
  - split; [apply list_elem_of_In, Hu | apply sameEmail_true, E].
Qed.

Lemma freshId_spec (id : string) (us : list User.t) :
  freshId id us = true <-> forall u, u ∈ us -> User.id u <> id.
Proof.
  unfold freshId. rewrite forallb_forall. split; intros H u Hu.
  - apply list_elem_of_In, H in Hu. apply negb_true_iff in Hu.
    intros E. apply String.eqb_eq in E. congruence.
  - apply negb_true_iff. apply String.eqb_neq. apply H, list_elem_of_In, Hu.
Qed.

(** [find] returns the first element that satisfies the test. *)
Lemma find_first {A : Type} (p : A -> bool) (l1 l2 : list A) (u : A) :
  (forall x, x ∈ l1 -> p x = false) -> p u = true ->
  find p (l1 ++ u :: l2) = Some u.
Proof.
  intros Hl1 Hu. induction l1 as [|y l1 IH]; simpl.
  - rewrite Hu. reflexivity.
  - rewrite (Hl1 y) by apply list_elem_of_here.
    apply IH. intros x Hx. apply Hl1. apply list_elem_of_further, Hx.
Qed.

Lemma find_split {A : Type} (p : A -> bool) (l : list A) (u : A) :
  find p l = Some u ->
  exists l1 l2, l = (l1 ++ u :: l2)%list /\ p u = true /\
                forall x, x ∈ l1 -> p x = false.
Proof.
  induction l as [|y l IH]; simpl; [discriminate|].
  destruct (p y) eqn:Ey.
  - intros [= ->]. exists [], l. repeat split; [assumption|].
    intros x Hx. inversion Hx.
  - intros H. destruct (IH H) as (l1 & l2 & -> & Hu & Hl1).
    exists (y :: l1), l2. repeat split; [assumption|].
    intros x Hx. apply elem_of_cons in Hx as [->|Hx]; auto.
Qed.

Lemma find_none_iff {A : Type} (p : A -> bool) (l : list A) :
  find p l = None <-> forall x, x ∈ l -> p x = false.
Proof.
  split.
  - intros H x Hx. apply (find_none p l H). apply list_elem_of_In, Hx.
  - intros H. destruct (find p l) as [u|] eqn:E; [|reflexivity].
    apply find_some in E as [Hin Hp].
    apply list_elem_of_In, H in Hin. congruence.
Qed.

(** The lookup of the referral block runs over the old users first and the
    new user last. *)
Lemma find_newUsers {A : Type} (p : A -> bool) (us : list A) (n : A) :
  find p (us ++ [n])
  = match find p us with
    | Some u => Some u
    | None => if p n then Some n else None
    end.
Proof.
  induction us as [|y us IH]; simpl; [reflexivity|].
  destruct (p y); [reflexivity | exact IH].
Qed.

Lemma accepted_spec {CF : CaseFolding} (fd : RegisterForm) (a : App) :
  accepted fd a = true
  <-> reg_name fd <> "" /\ reg_email fd <> "" /\ reg_pass fd <> "" /\
      forall u, u ∈ users a ->
        toLowerCase (User.email u) <> toLowerCase (reg_email fd).
Proof.
  unfold accepted.
  rewrite andb_true_iff, !negb_true_iff, !orb_false_iff, !isEmpty_false.
  split.
  - intros [[[Hn He] Hp] Hd]. repeat split; try assumption.
    intros u Hu E.
    assert (existsb (sameEmail (reg_email fd)) (users a) = true) as Hx
      by (apply existsb_sameEmail; eauto).
    congruence.
  - intros (Hn & He & Hp & Hd). repeat split; try assumption.
    destruct (existsb _ _) eqn:E; [|reflexivity].
    apply existsb_sameEmail in E as (u & Hu & E). destruct (Hd u Hu E).
Qed.

(** What [handleRegister] does with a registration that passes its checks. *)
Lemma handleRegister_accepted {CF : CaseFolding} (fd : RegisterForm) (id : string) (t : Z) (a : App) :
  accepted fd a = true ->
  handleRegister fd id t a
  = (None,
     {| users := users a ++ [newUserOf fd id t];
        session := Some {| uid := id |};
        wallets :=
          referralReward (reg_ref fd) (users a ++ [newUserOf fd id t])
            (<[KEYS_wallet id := AllFields newWallet]> (wallets a));
        hash := "#/dashboard" |}).
Proof.
  unfold accepted, handleRegister, newUserOf, reg_name, reg_email, reg_pass,
    reg_ref.
  intros H. apply andb_true_iff in H as [H1 H2].
  apply negb_true_iff in H1, H2. rewrite H1, H2. reflexivity.
Qed.

Lemma referralReward_found (ref : string) (us : list User.t)
    (ws : gmap string WalletObj) (u : User.t) :
  ref <> "" -> find (isReferrer ref) us = Some u ->
  referralReward ref us ws
  = <[KEYS_wallet (User.id u) :=
        creditReferral (default (BalanceOnly 0) (ws !! KEYS_wallet (User.id u)))]> ws.
Proof.
  intros Hne Hf. unfold referralReward.
  apply isEmpty_false in Hne. rewrite Hne, Hf. reflexivity.
Qed.

Lemma referralReward_none (ref : string) (us : list User.t)
    (ws : gmap string WalletObj) :
  ref = "" \/ find (isReferrer ref) us = None ->
  referralReward ref us ws = ws.
Proof.
  unfold referralReward. intros [->|Hf]; [reflexivity|].
  rewrite Hf. destruct (Str.isEmpty ref); reflexivity.
Qed.

Lemma creditReferral_balance (rw : WalletObj) :
  (objBalance (creditReferral rw) == objBalance rw + 0.01)%Q.
Proof.
  destruct rw as [w|b]; simpl; rewrite orZero_eq; reflexivity.
Qed.

Lemma creditReferral_totalMined (rw : WalletObj) :
  objTotalMined (creditReferral rw) = objTotalMined rw.
Proof. destruct rw; reflexivity. Qed.

Lemma isReferrer_spec (ref : string) (u : User.t) :
  isReferrer ref u = true
  <-> User.name u = ref \/ User.email u = ref \/ User.id u = ref.
Proof.
  unfold isReferrer. rewrite !orb_true_iff, !String.eqb_eq. tauto.
Qed.

(** C5. [handleRegister] on the values it names [name], [email], [pass] and
    [ref]: with one of the first three empty it alerts MissingField; else,
    with a registered user whose email is the same up to case, it alerts
    DuplicateEmail; in both cases the state is returned as it was. Otherwise
    it succeeds: the new user is appended, the session holds the new id, and
    the store [ws] the referral block then runs on has the zeroed wallet
    under the new user's key and all other keys as before. *)
Theorem register_outcome {CF : CaseFolding} (fd : RegisterForm) (id : string) (t : Z) (a : App) :
  let name := reg_name fd in
  let email := reg_email fd in
  let pass := reg_pass fd in
  let ref := reg_ref fd in
  (name = "" \/ email = "" \/ pass = "" ->
   handleRegister fd id t a = (Some MissingField, a)) /\
  (name <> "" -> email <> "" -> pass <> "" ->
   (exists u, u ∈ users a /\
              toLowerCase (User.email u) = toLowerCase email) ->
   handleRegister fd id t a = (Some DuplicateEmail, a)) /\
  (name <> "" -> email <> "" -> pass <> "" ->
   (forall u, u ∈ users a ->
              toLowerCase (User.email u) <> toLowerCase email) ->
   exists (a' : App) (ws : gmap string WalletObj),
     handleRegister fd id t a = (None, a') /\
     users a' = (users a ++
                 [User.mk id name email
                    (if Str.isEmpty ref then None else Some ref) t])%list /\
     session a' = Some {| uid := id |} /\
     ws !! KEYS_wallet id = Some (AllFields newWallet) /\
     (forall k, k <> KEYS_wallet id -> ws !! k = wallets a !! k) /\
     wallets a' = referralReward ref (users a') ws /\
     (ref = "" -> wallets a' = ws)).
Proof.
  intros name email pass ref. split; [|split].
  - intros H. unfold handleRegister.
    fold (reg_name fd) (reg_email fd) (reg_pass fd) (reg_ref fd).
    fold name email pass.
    assert (Str.isEmpty name || Str.isEmpty email || Str.isEmpty pass = true)
      as ->; [|reflexivity].
    rewrite !orb_true_iff, !isEmpty_true. tauto.
  - intros Hn He Hp Hd. unfold handleRegister.
    fold (reg_name fd) (reg_email fd) (reg_pass fd) (reg_ref fd).
    fold name email pass.
    apply isEmpty_false in Hn, He, Hp. rewrite Hn, He, Hp. simpl.
    apply existsb_sameEmail in Hd. rewrite Hd. reflexivity.
  - intros Hn He Hp Hd.
    assert (accepted fd a = true) as Hacc.
    { apply accepted_spec. repeat split; assumption. }
    rewrite (handleRegister_accepted fd id t a Hacc).
    eexists. exists (<[KEYS_wallet id := AllFields newWallet]> (wallets a)).
    simpl. repeat split.
    + apply lookup_insert_eq.
    + intros k Hk. apply lookup_insert_ne. congruence.
    + intros E. apply referralReward_none. left. exact E.
Qed.

Lemma register_outcome_witness :
  handleRegister (Sample.form "Budi" " " "rahasia" "") "p0q7z2de" 2000 Sample.one
    = (Some MissingField, Sample.one) /\
  handleRegister (Sample.form "Budi" "ANI@Mail.com" "rahasia" "") "p0q7z2de"
      2000 Sample.one
    = (Some DuplicateEmail, Sample.one) /\
  exists (a' : App) (ws : gmap string WalletObj),
     handleRegister (Sample.form "Budi" "budi@mail.com" "rahasia" "") "p0q7z2de"
       2000 Sample.one = (None, a') /\
     users a' = [Sample.ani; Sample.budi] /\
     session a' = Some {| uid := "p0q7z2de" |} /\
     ws !! KEYS_wallet "p0q7z2de" = Some (AllFields newWallet) /\
     (forall k, k <> KEYS_wallet "p0q7z2de" -> ws !! k = wallets Sample.one !! k) /\
     wallets a' = referralReward "" (users a') ws /\
     ("" = "" -> wallets a' = ws).
Proof.
  split; [|split].
  - apply (proj1 (register_outcome (Sample.form "Budi" " " "rahasia" "")
                    "p0q7z2de" 2000 Sample.one)).
    right; left. vm_compute. reflexivity.
  - apply (proj1 (proj2 (register_outcome
                    (Sample.form "Budi" "ANI@Mail.com" "rahasia" "")
                    "p0q7z2de" 2000 Sample.one))); try (vm_compute; discriminate).
    exists Sample.ani. split; [apply list_elem_of_here | vm_compute; reflexivity].
  - apply (proj2 (proj2 (register_outcome
                    (Sample.form "Budi" "budi@mail.com" "rahasia" "")
                    "p0q7z2de" 2000 Sample.one))); try (vm_compute; discriminate).
    intros u Hu. apply list_elem_of_singleton in Hu. subst u.
    vm_compute. discriminate.
Defined.

(** C3. For an accepted registration: it succeeds; when the referral code is
    the name, email or id of a registered user, the first such user [u] has
    the balance of their stored wallet raised by 0.01 and its [totalMined]
    as before (the id returned by [uid()] being new); when the code is empty
    or matches no registered user, no wallet key other than the new user's
    changes. *)
Theorem referral_credit {CF : CaseFolding} (fd : RegisterForm) (id : string) (t : Z) (a : App) :
  accepted fd a = true ->
  let ref := reg_ref fd in
  let a' := snd (handleRegister fd id t a) in
  fst (handleRegister fd id t a) = None /\
  (ref <> "" -> freshId id (users a) = true ->
   (exists x, x ∈ users a /\ isReferrer ref x = true) ->
   exists u l1 l2,
     users a = (l1 ++ u :: l2)%list /\ isReferrer ref u = true /\
     (forall x, x ∈ l1 -> isReferrer ref x = false) /\
     (balanceAt (wallets a') (KEYS_wallet (User.id u))
      == balanceAt (wallets a) (KEYS_wallet (User.id u)) + 0.01)%Q /\
     wallets a' !! KEYS_wallet (User.id u) ≫= objTotalMined
     = wallets a !! KEYS_wallet (User.id u) ≫= objTotalMined) /\
  (ref = "" \/ (forall x, x ∈ users a -> isReferrer ref x = false) ->
   forall k, k <> KEYS_wallet id -> wallets a' !! k = wallets a !! k).
Proof.
  intros Hacc ref a'. subst a'.
  rewrite (handleRegister_accepted fd id t a Hacc). simpl.
  fold ref. split; [reflexivity|]. split.
  - intros Hne Hfresh (x & Hx & Hm).
    destruct (find (isReferrer ref) (users a)) as [u|] eqn:Hf.
    2:{ rewrite find_none_iff in Hf. rewrite (Hf x Hx) in Hm. discriminate. }
    destruct (find_split _ _ _ Hf) as (l1 & l2 & Hl & Hu & Hl1).
    exists u, l1, l2. repeat split; try assumption.
    + assert (u ∈ users a) as Hin
        by (rewrite Hl; apply elem_of_app; right; apply list_elem_of_here).
      pose proof (proj1 (freshId_spec _ _) Hfresh u Hin) as Hid.
      assert (KEYS_wallet id <> KEYS_wallet (User.id u)) as Hk
        by (intros E; apply KEYS_wallet_inj in E; congruence).
      rewrite (referralReward_found ref _ _ u Hne)
        by (rewrite find_newUsers, Hf; reflexivity).
      unfold balanceAt. rewrite lookup_insert_eq, lookup_insert_ne by exact Hk.
      simpl. apply creditReferral_balance.
    + assert (u ∈ users a) as Hin
        by (rewrite Hl; apply elem_of_app; right; apply list_elem_of_here).
      pose proof (proj1 (freshId_spec _ _) Hfresh u Hin) as Hid.
      assert (KEYS_wallet id <> KEYS_wallet (User.id u)) as Hk
        by (intros E; apply KEYS_wallet_inj in E; congruence).
      rewrite (referralReward_found ref _ _ u Hne)
        by (rewrite find_newUsers, Hf; reflexivity).
      rewrite lookup_insert_eq, lookup_insert_ne by exact Hk.
      simpl. rewrite creditReferral_totalMined.
      destruct (wallets a !! KEYS_wallet (User.id u)); reflexivity.
  - intros Hno k Hk.
    assert (forall ws : gmap string WalletObj,
              referralReward ref (users a ++ [newUserOf fd id t]) ws !! k
              = ws !! k) as Hrr.
    { intros ws. destruct Hno as [E|Hno].
      - rewrite referralReward_none by (left; exact E). reflexivity.
      - unfold referralReward. destruct (Str.isEmpty ref); [reflexivity|].
        rewrite find_newUsers.
        rewrite (proj2 (find_none_iff _ _) Hno).
        destruct (isReferrer ref (newUserOf fd id t)); [|reflexivity].
        simpl. apply lookup_insert_ne. congruence. }
    rewrite Hrr. apply lookup_insert_ne. congruence.
Qed.

Lemma referral_credit_witness :
  accepted (Sample.form "Budi" "budi@mail.com" "rahasia" "Ani") Sample.one = true /\
  fst (handleRegister (Sample.form "Budi" "budi@mail.com" "rahasia" "Ani")
         "p0q7z2de" 2000 Sample.one) = None /\
  (exists u l1 l2,
     [Sample.ani] = (l1 ++ u :: l2)%list /\ isReferrer "Ani" u = true /\
     (forall x, x ∈ l1 -> isReferrer "Ani" x = false) /\
     (balanceAt (wallets (snd (handleRegister
                   (Sample.form "Budi" "budi@mail.com" "rahasia" "Ani")
                   "p0q7z2de" 2000 Sample.one))) (KEYS_wallet (User.id u))
      == balanceAt (wallets Sample.one) (KEYS_wallet (User.id u)) + 0.01)%Q /\
     wallets (snd (handleRegister
                (Sample.form "Budi" "budi@mail.com" "rahasia" "Ani")
                "p0q7z2de" 2000 Sample.one)) !! KEYS_wallet (User.id u)
       ≫= objTotalMined
     = wallets Sample.one !! KEYS_wallet (User.id u) ≫= objTotalMined).
Proof.
  split; [reflexivity|].
  pose proof (referral_credit (CF := Sample.asciiFolding)
                (Sample.form "Budi" "budi@mail.com" "rahasia" "Ani")
                "p0q7z2de" 2000 Sample.one eq_refl) as (H1 & H2 & _).
  split; [exact H1|].
  apply H2.
  - discriminate.
  - reflexivity.
  - exists Sample.ani. split; [apply list_elem_of_here | reflexivity].
Defined.

(** C10. For an accepted registration with a fresh id and a referral code
    matched by user [u] and by no user registered before [u], whoever else
    matches: the stored wallet of [u] is the one credited (its balance grows
    by 0.01), the wallet of every registered user with another id is as
    before, and the new user's wallet is the zeroed one. *)
Theorem referral_first_match_only {CF : CaseFolding}
    (fd : RegisterForm) (id : string) (t : Z) (a : App)
    (l1 l2 : list User.t) (u : User.t) :
  accepted fd a = true ->
  reg_ref fd <> "" ->
  freshId id (users a) = true ->
  users a = (l1 ++ u :: l2)%list ->
  isReferrer (reg_ref fd) u = true ->
  (forall x, x ∈ l1 -> isReferrer (reg_ref fd) x = false) ->
  let a' := snd (handleRegister fd id t a) in
  wallets a' !! KEYS_wallet (User.id u)
  = Some (creditReferral
            (default (BalanceOnly 0) (wallets a !! KEYS_wallet (User.id u)))) /\
  (balanceAt (wallets a') (KEYS_wallet (User.id u))
   == balanceAt (wallets a) (KEYS_wallet (User.id u)) + 0.01)%Q /\
  (forall v, v ∈ users a -> User.id v <> User.id u ->
             wallets a' !! KEYS_wallet (User.id v)
             = wallets a !! KEYS_wallet (User.id v)) /\
  wallets a' !! KEYS_wallet id = Some (AllFields newWallet).
Proof.
  intros Hacc Hne Hfresh Hl Hu Hl1 a'. subst a'.
  rewrite (handleRegister_accepted fd id t a Hacc). simpl.
  assert (find (isReferrer (reg_ref fd)) (users a ++ [newUserOf fd id t])
          = Some u) as Hf.
  { rewrite find_newUsers, Hl, (find_first _ _ _ _ Hl1 Hu). reflexivity. }
  rewrite (referralReward_found _ _ _ u Hne Hf).
  pose proof (proj1 (freshId_spec _ _) Hfresh) as Hids.
  assert (KEYS_wallet id <> KEYS_wallet (User.id u)) as Hk.
  { intros E. apply KEYS_wallet_inj in E. apply (Hids u); [|congruence].
    rewrite Hl. apply elem_of_app. right. apply list_elem_of_here. }
  assert (wallets a !! KEYS_wallet (User.id u)
          = <[KEYS_wallet id := AllFields newWallet]> (wallets a)
              !! KEYS_wallet (User.id u)) as Hsame
    by (rewrite lookup_insert_ne by exact Hk; reflexivity).
  rewrite <- Hsame. repeat split.
  - apply lookup_insert_eq.
  - unfold balanceAt. rewrite lookup_insert_eq. simpl.
    apply creditReferral_balance.
  - intros v Hv Hvu.
    rewrite !lookup_insert_ne; [reflexivity| |].
    + intros E. apply KEYS_wallet_inj in E. apply (Hids v Hv). congruence.
    + intros E. apply KEYS_wallet_inj in E. congruence.
  - rewrite lookup_insert_ne by congruence. apply lookup_insert_eq.
Qed.

Lemma referral_first_match_only_witness :
  let a' := snd (handleRegister
                   (Sample.form "Citra" "citra@mail.com" "rahasia" "Ani")
                   "z9y8x7wv" 4000 Sample.three) in
  wallets a' !! KEYS_wallet "k3x9a1bc"
  = Some (creditReferral
            (default (BalanceOnly 0)
               (wallets Sample.three !! KEYS_wallet "k3x9a1bc"))) /\
  (balanceAt (wallets a') (KEYS_wallet "k3x9a1bc")
   == balanceAt (wallets Sample.three) (KEYS_wallet "k3x9a1bc") + 0.01)%Q /\
  (forall v, v ∈ users Sample.three -> User.id v <> "k3x9a1bc" ->
             wallets a' !! KEYS_wallet (User.id v)
             = wallets Sample.three !! KEYS_wallet (User.id v)) /\
  wallets a' !! KEYS_wallet "z9y8x7wv" = Some (AllFields newWallet).
Proof.
  apply (referral_first_match_only
           (Sample.form "Citra" "citra@mail.com" "rahasia" "Ani")
           "z9y8x7wv" 4000 Sample.three [] [Sample.budi; Sample.ani2] Sample.ani).
  - reflexivity.
  - discriminate.
  - reflexivity.
  - reflexivity.
  - reflexivity.
  - intros x Hx. inversion Hx.
Defined.

(** C4, as the code has it. The lookup runs over the registered users and
    then the new one. For an accepted registration with a fresh id: when the
    referral code is not empty, matches no registered user and is the new
    user's own name, email or id, the 0.01 goes to the new user's own
    wallet; when the code is empty, or matches a registered user, or is none
    of the new user's name, email and id, the new user's wallet is the
    zeroed one. *)
Theorem referral_self_match {CF : CaseFolding}
    (fd : RegisterForm) (id : string) (t : Z) (a : App) :
  accepted fd a = true ->
  freshId id (users a) = true ->
  let ref := reg_ref fd in
  let a' := snd (handleRegister fd id t a) in
  (ref <> "" ->
   (forall x, x ∈ users a -> isReferrer ref x = false) ->
   reg_name fd = ref \/ reg_email fd = ref \/ id = ref ->
   wallets a' !! KEYS_wallet id = Some (AllFields (creditWallet newWallet)) /\
   (balanceAt (wallets a') (KEYS_wallet id) == 0.01)%Q) /\
  (ref = "" \/
   (exists x, x ∈ users a /\ isReferrer ref x = true) \/
   (reg_name fd <> ref /\ reg_email fd <> ref /\ id <> ref) ->
   wallets a' !! KEYS_wallet id = Some (AllFields newWallet)).
Proof.
  intros Hacc Hfresh ref a'. subst a'.
  rewrite (handleRegister_accepted fd id t a Hacc). simpl. fold ref.
  split.
  - intros Hne Hno Hself.
    assert (find (isReferrer ref) (users a ++ [newUserOf fd id t])
            = Some (newUserOf fd id t)) as Hf.
    { rewrite find_newUsers, (proj2 (find_none_iff _ _) Hno).
      rewrite (proj2 (isReferrer_spec ref (newUserOf fd id t))) by exact Hself.
      reflexivity. }
    rewrite (referralReward_found _ _ _ _ Hne Hf). simpl.
    unfold balanceAt. rewrite !lookup_insert_eq. simpl.
    split; reflexivity.
  - intros [E | [(x & Hx & Hm) | Hnot]].
    + rewrite referralReward_none by (left; exact E). apply lookup_insert_eq.
    + destruct (Str.isEmpty ref) eqn:Hemp.
      { apply isEmpty_true in Hemp.
        rewrite referralReward_none by (left; exact Hemp).
        apply lookup_insert_eq. }
      apply isEmpty_false in Hemp.
      destruct (find (isReferrer ref) (users a)) as [u|] eqn:Hf.
      2:{ rewrite find_none_iff in Hf. rewrite (Hf x Hx) in Hm. discriminate. }
      rewrite (referralReward_found ref _ _ u Hemp)
        by (rewrite find_newUsers, Hf; reflexivity).
      apply find_some in Hf as [Hin _]. apply list_elem_of_In in Hin.
      pose proof (proj1 (freshId_spec _ _) Hfresh u Hin) as Hid.
      rewrite lookup_insert_ne
        by (intros E; apply KEYS_wallet_inj in E; congruence).
      apply lookup_insert_eq.
    + destruct (Str.isEmpty ref) eqn:Hemp.
      { apply isEmpty_true in Hemp.
        rewrite referralReward_none by (left; exact Hemp).
        apply lookup_insert_eq. }
      apply isEmpty_false in Hemp.
      destruct (find (isReferrer ref) (users a ++ [newUserOf fd id t]))
        as [u|] eqn:Hf.
      2:{ rewrite referralReward_none by (right; exact Hf).
          apply lookup_insert_eq. }
      rewrite (referralReward_found ref _ _ u Hemp Hf).
      rewrite find_newUsers in Hf.
      destruct (find (isReferrer ref) (users a)) as [u'|] eqn:Hf'.
      * injection Hf as ->.
        apply find_some in Hf' as [Hin _]. apply list_elem_of_In in Hin.
        pose proof (proj1 (freshId_spec _ _) Hfresh u Hin) as Hid.
        rewrite lookup_insert_ne
          by (intros E; apply KEYS_wallet_inj in E; congruence).
        apply lookup_insert_eq.
      * destruct (isReferrer ref (newUserOf fd id t)) eqn:Hself;
          [|discriminate].
        apply isReferrer_spec in Hself. simpl in Hself. tauto.
Qed.

Lemma referral_self_match_witness :
  let a' := snd (handleRegister
                   (Sample.form "Budi" "budi@mail.com" "rahasia" "budi@mail.com")
                   "p0q7z2de" 2000 Sample.one) in
  wallets a' !! KEYS_wallet "p0q7z2de" = Some (AllFields (creditWallet newWallet)) /\
  (balanceAt (wallets a') (KEYS_wallet "p0q7z2de") == 0.01)%Q.
Proof.
  apply (proj1 (referral_self_match (CF := Sample.asciiFolding)
                  (Sample.form "Budi" "budi@mail.com" "rahasia" "budi@mail.com")
                  "p0q7z2de" 2000 Sample.one eq_refl eq_refl)).
  - discriminate.
  - intros x Hx. apply list_elem_of_singleton in Hx. subst x. reflexivity.
  - right; left. reflexivity.
Defined.

(** C4 as stated fails: a first user who registers as "Ani" with the
    referral code "Ani" ends with 0.01 in their own wallet. *)
Lemma referral_credits_registrant :
  let r := handleRegister (Sample.form "Ani" "ani@mail.com" "rahasia" "Ani")
             "k3x9a1bc" 1000 Sample.empty in
  fst r = None /\
  users (snd r) = [User.mk "k3x9a1bc" "Ani" "ani@mail.com" (Some "Ani") 1000] /\
  wallets (snd r) !! KEYS_wallet "k3x9a1bc"
  = Some (AllFields (mkWallet 0.01 0 0 12.5 false 1)) /\
  ~ (balanceAt (wallets (snd r)) (KEYS_wallet "k3x9a1bc") == 0)%Q.
Proof.
  vm_compute. repeat split. discriminate.
Qed.

(** White space that is not ASCII is trimmed like the rest: a name that is
    one U+00A0 is a missing field, and a code or an email followed by
    U+00A0 is the code or the email. *)
Example register_name_no_break_space :
  handleRegister
    (Sample.form (string_of_list_ascii (map ascii_of_nat [194; 160]))
       "budi@mail.com" "rahasia" "Ani")
    "p0q7z2de" 2000 Sample.one
  = (Some MissingField, Sample.one).
Proof. reflexivity. Qed.

Example register_code_no_break_space :
  balanceAt
    (wallets (snd (handleRegister
                     (Sample.form "Budi" "budi@mail.com" "rahasia"
                        ("Ani" ++ string_of_list_ascii
                                    (map ascii_of_nat [194; 160])))
                     "p0q7z2de" 2000 Sample.one)))
    (KEYS_wallet "k3x9a1bc")
  = 0.01%Q.
Proof. reflexivity. Qed.

Example login_email_no_break_space :
  session (snd (handleLogin
                  (Some ("ani@mail.com"
                         ++ string_of_list_ascii (map ascii_of_nat [194; 160])))
                  Sample.one))
  = Some {| uid := "k3x9a1bc" |}.
Proof. reflexivity. Qed.

(** C7, as the code has it. [handleLogin] on the trimmed email: when it is
    empty the alert is EmptyEmail; when it is not empty and no registered
    user has it up to case, the alert is NotFound; in both cases the state,
    and so the session, is as before. Otherwise the session becomes that of
    the first registered user with that email up to case, and users and
    wallets are kept. *)
Theorem login_outcome {CF : CaseFolding} (fd_email : option string) (a : App) :
  let email := Str.trim (field fd_email) in
  (email = "" -> handleLogin fd_email a = (Some EmptyEmail, a)) /\
  (email <> "" ->
   (forall u, u ∈ users a ->
              toLowerCase (User.email u) <> toLowerCase email) ->
   handleLogin fd_email a = (Some NotFound, a)) /\
  (email <> "" ->
   forall l1 u l2,
     users a = (l1 ++ u :: l2)%list ->
     toLowerCase (User.email u) = toLowerCase email ->
     (forall x, x ∈ l1 ->
                toLowerCase (User.email x) <> toLowerCase email) ->
     fst (handleLogin fd_email a) = None /\
     session (snd (handleLogin fd_email a)) = Some {| uid := User.id u |} /\
     users (snd (handleLogin fd_email a)) = users a /\
     wallets (snd (handleLogin fd_email a)) = wallets a).
Proof.
  intros email. unfold handleLogin. fold email. split; [|split].
  - intros ->. reflexivity.
  - intros Hne Hno. apply isEmpty_false in Hne. rewrite Hne.
    assert (find (sameEmail email) (users a) = None) as ->; [|reflexivity].
    apply find_none_iff. intros x Hx.
    destruct (sameEmail email x) eqn:E; [|reflexivity].
    apply sameEmail_true in E. destruct (Hno x Hx E).
  - intros Hne l1 u l2 Hl Hu Hl1. apply isEmpty_false in Hne. rewrite Hne.
    assert (find (sameEmail email) (users a) = Some u) as ->.
    { rewrite Hl. apply find_first.
      - intros x Hx. destruct (sameEmail email x) eqn:E; [|reflexivity].
        apply sameEmail_true in E. destruct (Hl1 x Hx E).
      - apply sameEmail_true, Hu. }
    simpl. repeat split.
Qed.

Lemma login_outcome_witness :
  handleLogin (Some "  ") Sample.three = (Some EmptyEmail, Sample.three) /\
  handleLogin (Some "citra@mail.com") Sample.three
    = (Some NotFound, Sample.three) /\
  (fst (handleLogin (Some " Budi@Mail.com ") Sample.three) = None /\
   session (snd (handleLogin (Some " Budi@Mail.com ") Sample.three))
     = Some {| uid := "p0q7z2de" |} /\
   users (snd (handleLogin (Some " Budi@Mail.com ") Sample.three))
     = users Sample.three /\
   wallets (snd (handleLogin (Some " Budi@Mail.com ") Sample.three))
     = wallets Sample.three).
Proof.
  split; [|split].
  - apply (proj1 (login_outcome (Some "  ") Sample.three)). reflexivity.
  - apply (proj1 (proj2 (login_outcome (Some "citra@mail.com") Sample.three))).
    + discriminate.
    + intros u Hu. repeat (apply elem_of_cons in Hu as [->|Hu]);
        [vm_compute; discriminate .. | inversion Hu].
  - apply (proj2 (proj2 (login_outcome (Some " Budi@Mail.com ") Sample.three))
             ltac:(discriminate) [Sample.ani] Sample.budi [Sample.ani2]).
    + reflexivity.
    + reflexivity.
    + intros x Hx. apply list_elem_of_singleton in Hx. subst x.
      vm_compute. discriminate.
Defined.

(** C7 as stated fails for the empty email: no registered user has it, yet
    the alert is not NotFound. *)
Lemma login_empty_email_not_NotFound :
  (forall u, u ∈ users Sample.one ->
             toLowerCase (User.email u) <> toLowerCase "") /\
  handleLogin (Some "") Sample.one = (Some EmptyEmail, Sample.one) /\
  fst (handleLogin (Some "") Sample.one) <> Some NotFound.
Proof.
  split; [|split].
  - intros u Hu. apply list_elem_of_singleton in Hu. subst u.
    vm_compute. discriminate.
  - reflexivity.
  - vm_compute. discriminate.
Qed.

Lemma logout_clears_session (a : App) :
  session (logout a) = None /\ users (logout a) = users a /\
  wallets (logout a) = wallets a.
Proof. repeat split. Qed.

(** After an accepted registration [me] is the new user, when the id is
    fresh. *)
Lemma me_after_register {CF : CaseFolding} (fd : RegisterForm) (id : string) (t : Z) (a : App) :
  accepted fd a = true -> freshId id (users a) = true ->
  me (snd (handleRegister fd id t a)) = Some (newUserOf fd id t).
Proof.
  intros Hacc Hfresh. rewrite (handleRegister_accepted fd id t a Hacc).
  unfold me. simpl. rewrite find_newUsers.
  assert (find (fun u => String.eqb (User.id u) id) (users a) = None) as ->.
  { apply find_none_iff. intros x Hx. apply String.eqb_neq.
    apply (proj1 (freshId_spec _ _) Hfresh x Hx). }
  simpl. rewrite String.eqb_refl. reflexivity.
Qed.

(** ** White space *)

Section DropHead.
Variable p1 : ascii -> bool.
Variable p2 : ascii -> ascii -> bool.
Variable p3 : ascii -> ascii -> ascii -> bool.

Lemma dropHead_id (l : list ascii) :
  Str.headFree p1 p2 p3 l = true -> Str.dropHead p1 p2 p3 l = l.
Proof.
  destruct l as [|a [|b [|c l3]]]; simpl; try reflexivity.
  - destruct (p1 a); [discriminate | reflexivity].
  - destruct (p1 a); [discriminate|]. destruct (p2 a b); [discriminate|].
    reflexivity.
  - destruct (p1 a); [discriminate|]. destruct (p2 a b); [discriminate|].
    destruct (p3 a b c); [discriminate | reflexivity].
Qed.

Lemma dropHead_spec (n : nat) (l : list ascii) :
  (length l <= n)%nat ->
  Str.headFree p1 p2 p3 (Str.dropHead p1 p2 p3 l) = true /\
  exists w, l = (w ++ Str.dropHead p1 p2 p3 l)%list.
Proof.
  revert l. induction n as [|n IH]; intros l Hn.
  - destruct l; [|simpl in Hn; lia]. split; [reflexivity | exists []; reflexivity].
  - destruct l as [|a l1]; [split; [reflexivity | exists []; reflexivity]|].
    simpl in Hn. simpl Str.dropHead.
    destruct (p1 a) eqn:E1.
    { destruct (IH l1 ltac:(lia)) as [H (w & Hw)]. split; [exact H|].
      exists (a :: w). simpl. f_equal. exact Hw. }
    destruct l1 as [|b l2].
    { split; [simpl; rewrite E1; reflexivity | exists []; reflexivity]. }
    simpl in Hn. destruct (p2 a b) eqn:E2.
    { destruct (IH l2 ltac:(lia)) as [H (w & Hw)]. split; [exact H|].
      exists (a :: b :: w). simpl. do 2 f_equal. exact Hw. }
    destruct l2 as [|c l3].
    { split; [simpl; rewrite E1, E2; reflexivity | exists []; reflexivity]. }
    simpl in Hn. destruct (p3 a b c) eqn:E3.
    { destruct (IH l3 ltac:(lia)) as [H (w & Hw)]. split; [exact H|].
      exists (a :: b :: c :: w). simpl. do 3 f_equal. exact Hw. }
    split; [simpl; rewrite E1, E2, E3; reflexivity | exists []; reflexivity].
Qed.

Lemma dropHead_headFree (l : list ascii) :
  Str.headFree p1 p2 p3 (Str.dropHead p1 p2 p3 l) = true.
Proof. apply (dropHead_spec (length l) l). lia. Qed.

Lemma dropHead_suffix (l : list ascii) :
  exists w, l = (w ++ Str.dropHead p1 p2 p3 l)%list.
Proof. apply (dropHead_spec (length l) l). lia. Qed.

Lemma dropHead_idempotent (l : list ascii) :
  Str.dropHead p1 p2 p3 (Str.dropHead p1 p2 p3 l) = Str.dropHead p1 p2 p3 l.
Proof. apply dropHead_id, dropHead_headFree. Qed.

(** A list with nothing to drop at its head has prefixes with nothing to
    drop at theirs. *)
Lemma headFree_prefix (t x : list ascii) :
  Str.headFree p1 p2 p3 (t ++ x) = true -> Str.headFree p1 p2 p3 t = true.
Proof.
  destruct t as [|a [|b [|c t3]]]; simpl; try reflexivity.
  - intros H. apply andb_true_iff in H as [H _]. rewrite H. reflexivity.
  - intros H. apply andb_true_iff in H as [H H']. rewrite H. simpl.
    apply andb_true_iff in H' as [H' _]. rewrite H'. reflexivity.
  - tauto.
Qed.

End DropHead.

Lemma trimEndBytes_prefix (l : list ascii) :
  exists w, l = (Str.trimEndBytes l ++ w)%list.
Proof.
  unfold Str.trimEndBytes.
  destruct (dropHead_suffix Str.space1 (fun b a => Str.space2 a b)
              (fun c b a => Str.space3 a b c) (rev l)) as (w & Hw).
  exists (rev w). rewrite <- rev_app_distr, <- Hw, rev_involutive. reflexivity.
Qed.

Lemma trimEndBytes_idempotent (l : list ascii) :
  Str.trimEndBytes (Str.trimEndBytes l) = Str.trimEndBytes l.
Proof.
  unfold Str.trimEndBytes. rewrite rev_involutive, dropHead_idempotent.
  reflexivity.
Qed.

Lemma trimBytes_idempotent (l : list ascii) :
  Str.trimEndBytes (Str.trimStartBytes
     (Str.trimEndBytes (Str.trimStartBytes l)))
  = Str.trimEndBytes (Str.trimStartBytes l).
Proof.
  assert (Str.trimStartBytes (Str.trimEndBytes (Str.trimStartBytes l))
          = Str.trimEndBytes (Str.trimStartBytes l)) as ->.
  { unfold Str.trimStartBytes at 1. apply dropHead_id.
    destruct (trimEndBytes_prefix (Str.trimStartBytes l)) as (w & Hw).
    apply (headFree_prefix _ _ _ _ w). rewrite <- Hw.
    apply dropHead_headFree. }
  apply trimEndBytes_idempotent.
Qed.

Lemma trim_idempotent (s : string) : Str.trim (Str.trim s) = Str.trim s.
Proof.
  unfold Str.trim. rewrite list_ascii_of_string_of_list_ascii.
  rewrite trimBytes_idempotent. reflexivity.
Qed.

(** ** Storage: round trip and keys *)

(** X1. With a printer whose text is not empty and parses back to the
    value, a [read] after a [write] of the same key returns the value
    written, whatever was stored before, and a read of any other key is as
    before the write. *)
Theorem read_write_roundtrip {V : Type}
    (JSON_parse : string -> option V) (JSON_stringify : V -> string)
    (ls : gmap string string) (k : string) (v d : V) :
  JSON_stringify v <> "" ->
  JSON_parse (JSON_stringify v) = Some v ->
  LocalStorage.read JSON_parse (LocalStorage.write JSON_stringify k v ls) k d = v /\
  forall j d', j <> k ->
    LocalStorage.read JSON_parse (LocalStorage.write JSON_stringify k v ls) j d'
    = LocalStorage.read JSON_parse ls j d'.
Proof.
  intros Hne Hrt. unfold LocalStorage.read, LocalStorage.write,
    LocalStorage.getItem.
  split.
  - rewrite lookup_insert_eq. rewrite Hrt.
    destruct (JSON_stringify v); [congruence | reflexivity].
  - intros j d' Hj. rewrite lookup_insert_ne by congruence. reflexivity.
Qed.

Lemma read_write_roundtrip_witness :
  LocalStorage.read LocalStorage.parseLiteral
    (LocalStorage.write stringifyLiteral "app.users" (LocalStorage.LBool true)
       LocalStorage.sampleStore) "app.users" LocalStorage.LNull
  = LocalStorage.LBool true /\
  forall j d', j <> "app.users" ->
    LocalStorage.read LocalStorage.parseLiteral
      (LocalStorage.write stringifyLiteral "app.users" (LocalStorage.LBool true)
         LocalStorage.sampleStore) j d'
    = LocalStorage.read LocalStorage.parseLiteral LocalStorage.sampleStore j d'.
Proof.
  apply (read_write_roundtrip LocalStorage.parseLiteral stringifyLiteral
           LocalStorage.sampleStore "app.users" (LocalStorage.LBool true)
           LocalStorage.LNull).
  - discriminate.
  - reflexivity.
Defined.

(** X2. Two users have the same wallet key only when they have the same
    id, and no id gives the key of the user list or of the session. *)
Theorem wallet_keys_separate (a b : string) :
  (KEYS_wallet a = KEYS_wallet b <-> a = b) /\
  KEYS_wallet a <> KEYS_users /\
  KEYS_wallet a <> KEYS_session.
Proof.
  split; [|split].
  - split; [apply KEYS_wallet_inj | congruence].
  - unfold KEYS_wallet, KEYS_users. cbv [String.append]. discriminate.
  - unfold KEYS_wallet, KEYS_session. cbv [String.append]. discriminate.
Qed.

(** ** The miner under several ticks *)

Lemma run_app (es1 es2 : list Event) (s : Dash) :
  run (es1 ++ es2) s = run es2 (run es1 s).
Proof. unfold run. apply fold_left_app. Qed.

Lemma run_ticks_idle (ts : list Z) (s : Dash) :
  mining (wallet s) = false -> run (map Tick ts) s = s.
Proof.
  intros H. induction ts as [|t ts IH]; simpl; [reflexivity|].
  unfold run in *. simpl. rewrite H. exact IH.
Qed.

Lemma last_cons_default {A : Type} (t : A) (ts : list A) (d : A) :
  List.last (t :: ts) d = List.last ts t.
Proof.
  revert t d. induction ts as [|u ts IH]; intros t d; [reflexivity|].
  change (List.last (t :: u :: ts) d) with (List.last (u :: ts) d).
  rewrite (IH u d), (IH u t). reflexivity.
Qed.

(** X3. While mining is on, any number of ticks leaves the wallet as it is
    and adds to [earned] what the specification gives for the time from the
    cursor to the last reading: the amount does not depend on how many
    ticks there were or when the earlier ones fired. *)
Theorem ticks_telescope (ts : list Z) (s : Dash) :
  mining (wallet s) = true ->
  wallet (run (map Tick ts) s) = wallet s /\
  lastRef (miner (run (map Tick ts) s)) = List.last ts (lastRef (miner s)) /\
  (earned (miner (run (map Tick ts) s))
   == earned (miner s)
      + spec_accrual
          (inject_Z (List.last ts (lastRef (miner s)) - lastRef (miner s)) / 1000)
          (hashrate (wallet s)) (boosts (wallet s)))%Q.
Proof.
  revert s. induction ts as [|t ts IH]; intros s Hm.
  - simpl. repeat split. unfold spec_accrual.
    rewrite Z.sub_diag. unfold Qdiv. ring.
  - change (run (map Tick (t :: ts)) s)
      with (run (map Tick ts) (step (Tick t) s)).
    assert (wallet (step (Tick t) s) = wallet s) as Hw
      by apply tick_leaves_wallet.
    destruct (IH (step (Tick t) s)) as (H1 & H2 & H3);
      [rewrite Hw; exact Hm|].
    rewrite Hw in *. split; [exact H1|].
    assert (lastRef (miner (step (Tick t) s)) = t) as Hl
      by (simpl; rewrite Hm; reflexivity).
    assert (earned (miner (step (Tick t) s))
            == earned (miner s)
               + spec_accrual (inject_Z (t - lastRef (miner s)) / 1000)
                   (hashrate (wallet s)) (boosts (wallet s)))%Q as He.
    { simpl. rewrite Hm. apply useMiner_tick_accrues. }
    rewrite Hl in *.
    rewrite last_cons_default.
    split; [exact H2|].
    rewrite H3, He. unfold spec_accrual. unfold Z.sub.
    rewrite !inject_Z_plus, !inject_Z_opp. field.
Qed.

Lemma ticks_telescope_witness :
  wallet (run (map Tick [1000; 1700; 4000]%Z)
            (step (MulaiMining 0) (initDash 0)))
  = wallet (step (MulaiMining 0) (initDash 0)) /\
  lastRef (miner (run (map Tick [1000; 1700; 4000]%Z)
                    (step (MulaiMining 0) (initDash 0)))) = 4000%Z /\
  (earned (miner (run (map Tick [1000; 1700; 4000]%Z)
                    (step (MulaiMining 0) (initDash 0))))
   == 0 + spec_accrual (inject_Z (4000 - 0) / 1000) 12.5 1)%Q.
Proof.
  apply (ticks_telescope [1000; 1700; 4000]%Z
           (step (MulaiMining 0) (initDash 0))).
  reflexivity.
Defined.

(** X4. Stopping and starting again: whatever the cursor was, whenever the
    stop happened and whatever ticks are attempted in between, the first
    tick after the restart adds the time since the restart only, and the
    wallet's amounts do not move. *)
Theorem pause_not_counted (s : Dash) (t1 t2 t3 : Z) (ts : list Z) :
  mining (wallet s) = true ->
  let s' := run (Stop t1 :: map Tick ts ++ [MulaiMining t2; Tick t3]) s in
  (earned (miner s')
   == earned (miner s)
      + spec_accrual (inject_Z (t3 - t2) / 1000)
          (hashrate (wallet s)) (boosts (wallet s)))%Q /\
  balance (wallet s') = balance (wallet s) /\
  totalMined (wallet s') = totalMined (wallet s) /\
  mining (wallet s') = true.
Proof.
  intros Hm s'. subst s'.
  change (run (Stop t1 :: map Tick ts ++ [MulaiMining t2; Tick t3]) s)
    with (run (map Tick ts ++ [MulaiMining t2; Tick t3]) (step (Stop t1) s)).
  rewrite run_app.
  assert (step (Stop t1) s
          = {| wallet := setMining false (wallet s);
               miner := useMiner_reset t1 (miner s) |}) as ->
    by (simpl; rewrite Hm; reflexivity).
  rewrite run_ticks_idle by reflexivity.
  unfold run. simpl. unfold spec_accrual.
  repeat split. field.
Qed.

Lemma pause_not_counted_witness :
  let s := step (Tick 1000) (step (MulaiMining 0) (initDash 0)) in
  let s' := run (Stop 1900 :: map Tick [2000; 3000]%Z
                   ++ [MulaiMining 60000; Tick 61000]) s in
  (earned (miner s')
   == earned (miner s) + spec_accrual (inject_Z (61000 - 60000) / 1000) 12.5 1)%Q /\
  balance (wallet s') = balance (wallet s) /\
  totalMined (wallet s') = totalMined (wallet s) /\
  mining (wallet s') = true.
Proof.
  apply (pause_not_counted
           (step (Tick 1000) (step (MulaiMining 0) (initDash 0)))
           1900 60000 61000 [2000; 3000]%Z).
  reflexivity.
Defined.

(** ** The bonus timer *)

Lemma step_keeps_lastBonus (e : Event) (s : Dash) :
  (forall a b, e <> KlaimSekarang a b) ->
  lastBonus (wallet (step e s)) = lastBonus (wallet s).
Proof.
  intros He. destruct e as [tnow| |t|t| |a b|]; simpl;
    try (destruct (mining (wallet s)); reflexivity); try reflexivity.
  destruct (He a b eq_refl).
Qed.

Lemma run_keeps_lastBonus (es : list Event) (s : Dash) :
  (forall e, e ∈ es -> forall a b, e <> KlaimSekarang a b) ->
  lastBonus (wallet (run es s)) = lastBonus (wallet s).
Proof.
  revert s. induction es as [|e es IH]; intros s H; [reflexivity|].
  change (run (e :: es) s) with (run es (step e s)).
  rewrite IH by (intros e' He'; apply H; apply list_elem_of_further, He').
  apply step_keeps_lastBonus. apply H. apply list_elem_of_here.
Qed.

(** X5. After a granted bonus whose second clock reading was [t2], no
    sequence of other events (ticks, flushes, start, stop, withdraw,
    referral credits) moves [lastBonus], and a further click read at a time
    [t1'] less than 24h after [t2] is refused and leaves the whole state as
    it is. *)
Theorem bonus_timer_only_moved_by_claim
    (s : Dash) (t1 t2 t1' t2' : Z) (es : list Event) :
  (DAY <= t1 - lastBonus (wallet s))%Z ->
  (forall e, e ∈ es -> forall a b, e <> KlaimSekarang a b) ->
  (t1' - t2 < DAY)%Z ->
  let s1 := run (KlaimSekarang t1 t2 :: es) s in
  lastBonus (wallet s1) = t2 /\
  (exists h m, fst (klaimSekarang t1' t2' (wallet s1)) = Some (TooSoon h m)) /\
  step (KlaimSekarang t1' t2') s1 = s1.
Proof.
  intros Hge Hes Hlt s1.
  assert (lastBonus (wallet s1) = t2) as Hl.
  { subst s1.
    change (run (KlaimSekarang t1 t2 :: es) s)
      with (run es (step (KlaimSekarang t1 t2) s)).
    rewrite (run_keeps_lastBonus _ _ Hes). simpl. unfold klaimSekarang.
    apply Z.ltb_ge in Hge. rewrite Hge. reflexivity. }
  split; [exact Hl|].
  assert ((t1' - lastBonus (wallet s1) <? DAY)%Z = true) as Hb
    by (rewrite Hl; apply Z.ltb_lt; exact Hlt).
  split.
  - unfold klaimSekarang. rewrite Hb. simpl. eauto.
  - simpl. unfold klaimSekarang. rewrite Hb. simpl.
    destruct s1; reflexivity.
Qed.

Lemma bonus_timer_only_moved_by_claim_witness :
  let s1 := run (KlaimSekarang 86400000 86400001
                   :: [MulaiMining 86400500; Tick 86401500; Flush; Withdraw;
                       ReferralBonus; Stop 86402000])
                (initDash 0) in
  lastBonus (wallet s1) = 86400001%Z /\
  (exists h m,
     fst (klaimSekarang 172800000 172800000 (wallet s1)) = Some (TooSoon h m)) /\
  step (KlaimSekarang 172800000 172800000) s1 = s1.
Proof.
  apply (bonus_timer_only_moved_by_claim (initDash 0) 86400000 86400001
           172800000 172800000
           [MulaiMining 86400500; Tick 86401500; Flush; Withdraw;
            ReferralBonus; Stop 86402000]).
  - vm_compute. discriminate.
  - intros e He a b.
    repeat (apply elem_of_cons in He as [->|He]; [discriminate|]).
    inversion He.
  - reflexivity.
Defined.

(** X6. No event changes the hashrate or the boost: in every state reached
    from the new wallet they are 12.5 and 1, so that a second of mining is
    always worth [12.5 / 10^9]. *)
Theorem rate_is_fixed (s : Dash) :
  reachable s ->
  hashrate (wallet s) = 12.5%Q /\ boosts (wallet s) = 1%Q /\
  forall tnow : Z,
    mining (wallet s) = true ->
    (earned (miner (step (Tick tnow) s))
     == earned (miner s)
        + inject_Z (tnow - lastRef (miner s)) / 1000 * (12.5 / 1000000000))%Q.
Proof.
  intros Hr.
  assert (hashrate (wallet s) = 12.5%Q /\ boosts (wallet s) = 1%Q) as [Hh Hb].
  { induction Hr as [t0 | s e _ [IHh IHb] _]; [split; reflexivity|].
    destruct e as [tnow| |t|t| |a b|]; simpl;
      try (destruct (mining (wallet s)); simpl; split; assumption);
      try (split; assumption).
    unfold klaimSekarang.
    destruct (a - lastBonus (wallet s) <? DAY)%Z; simpl; split; assumption. }
  repeat split; try assumption.
  intros tnow Hm. simpl. rewrite Hm, Hh, Hb. simpl. field.
Qed.

Lemma rate_is_fixed_witness :
  let s := step Flush (step (Tick 1000) (step (MulaiMining 0) (initDash 0))) in
  reachable s /\
  hashrate (wallet s) = 12.5%Q /\ boosts (wallet s) = 1%Q /\
  forall tnow : Z,
    mining (wallet s) = true ->
    (earned (miner (step (Tick tnow) s))
     == earned (miner s)
        + inject_Z (tnow - lastRef (miner s)) / 1000 * (12.5 / 1000000000))%Q.
Proof.
  assert (reachable (step Flush (step (Tick 1000)
                       (step (MulaiMining 0) (initDash 0))))) as Hr.
  { repeat (apply reach_step; [|reflexivity]). apply reach_init. }
  split; [exact Hr|]. exact (rate_is_fixed _ Hr).
Defined.

(** ** The registry: what every reachable state satisfies *)

Lemma handleRegister_rejected {CF : CaseFolding} (fd : RegisterForm) (id : string) (t : Z) (a : App) :
  accepted fd a = false -> snd (handleRegister fd id t a) = a.
Proof.
  unfold accepted, handleRegister, reg_name, reg_email, reg_pass.
  intros H.
  destruct (Str.isEmpty (Str.trim (field (fd_name fd)))
            || Str.isEmpty (Str.trim (field (fd_email fd)))
            || Str.isEmpty (field (fd_password fd))); [reflexivity|].
  destruct (existsb _ _); [reflexivity | discriminate].
Qed.

Lemma handleLogin_cases {CF : CaseFolding} (e : option string) (a : App) :
  snd (handleLogin e a) = a \/
  exists u, u ∈ users a /\ sameEmail (Str.trim (field e)) u = true /\
            find (sameEmail (Str.trim (field e))) (users a) = Some u /\
            handleLogin e a
            = (None, {| users := users a; session := Some {| uid := User.id u |};
                        wallets := wallets a; hash := "#/dashboard" |}).
Proof.
  unfold handleLogin.
  destruct (Str.isEmpty (Str.trim (field e))); [left; reflexivity|].
  destruct (find _ _) as [u|] eqn:Hf; [|left; reflexivity].
  right. exists u. pose proof (find_some _ _ Hf) as [Hin Hp].
  repeat split; try assumption. apply list_elem_of_In, Hin.
Qed.

Lemma me_withWallets (ws : gmap string WalletObj) (a : App) :
  me (withWallets ws a) = me a.
Proof. reflexivity. Qed.

Lemma find_id_some (us : list User.t) (u : User.t) :
  u ∈ us ->
  exists u', find (fun x => String.eqb (User.id x) (User.id u)) us = Some u'
             /\ User.id u' = User.id u.
Proof.
  intros Hin.
  destruct (find (fun x => String.eqb (User.id x) (User.id u)) us)
    as [u'|] eqn:Hf.
  - exists u'. split; [reflexivity|].
    apply find_some in Hf as [_ E]. apply String.eqb_eq, E.
  - rewrite find_none_iff in Hf. specialize (Hf u Hin).
    rewrite String.eqb_refl in Hf. discriminate.
Qed.

Lemma emailsUnique_act {CF : CaseFolding} (x : Action) (a : App) :
  emailsUnique a -> emailsUnique (act x a).
Proof.
  unfold emailsUnique. intros H. destruct x as [fd id t|e| |w]; simpl.
  - destruct (accepted fd a) eqn:Hacc.
    + rewrite (handleRegister_accepted fd id t a Hacc). simpl.
      rewrite map_app. apply NoDup_app. split; [exact H|]. split.
      * intros y Hy Hy'. apply list_elem_of_singleton in Hy'. subst y.
        apply list_elem_of_fmap in Hy as (u & E & Hu).
        apply accepted_spec in Hacc as (_ & _ & _ & Hd).
        apply (Hd u Hu). symmetry. exact E.
      * apply NoDup_singleton.
    + rewrite handleRegister_rejected by exact Hacc. exact H.
  - destruct (handleLogin_cases e a) as [->|(u & _ & _ & _ & ->)]; exact H.
  - exact H.
  - exact H.
Qed.

Lemma referralReward_complete (ref : string) (us : list User.t)
    (ws : gmap string WalletObj) (k : string) :
  (exists w, ws !! k = Some (AllFields w)) ->
  exists w, referralReward ref us ws !! k = Some (AllFields w).
Proof.
  intros (w & Hw). unfold referralReward.
  destruct (Str.isEmpty ref); [eauto|].
  destruct (find (isReferrer ref) us) as [r|]; [|eauto].
  simpl. destruct (decide (KEYS_wallet (User.id r) = k)) as [->|Hk].
  - rewrite lookup_insert_eq, Hw. simpl. eauto.
  - rewrite lookup_insert_ne by exact Hk. eauto.
Qed.

Lemma walletsComplete_act {CF : CaseFolding} (x : Action) (a : App) :
  walletsComplete a -> walletsComplete (act x a).
Proof.
  unfold walletsComplete. intros H. destruct x as [fd id t|e| |w]; simpl.
  - destruct (accepted fd a) eqn:Hacc.
    + rewrite (handleRegister_accepted fd id t a Hacc). simpl.
      intros u Hu. apply referralReward_complete.
      destruct (decide (KEYS_wallet id = KEYS_wallet (User.id u))) as [E|E].
      * rewrite E, lookup_insert_eq. eauto.
      * rewrite lookup_insert_ne by exact E.
        apply elem_of_app in Hu as [Hu|Hu]; [apply H, Hu|].
        apply list_elem_of_singleton in Hu. subst u. destruct E. reflexivity.
    + rewrite handleRegister_rejected by exact Hacc. exact H.
  - destruct (handleLogin_cases e a) as [->|(u & _ & _ & _ & ->)]; exact H.
  - exact H.
  - intros u Hu. unfold persistWallet.
    destruct (me a) as [c|]; simpl; [|apply H, Hu].
    destruct (decide (KEYS_wallet (User.id c) = KEYS_wallet (User.id u)))
      as [E|E].
    + rewrite E, lookup_insert_eq. eauto.
    + rewrite lookup_insert_ne by exact E. apply H, Hu.
Qed.

Lemma usersTrimmed_act {CF : CaseFolding} (x : Action) (a : App) :
  usersTrimmed a -> usersTrimmed (act x a).
Proof.
  unfold usersTrimmed. intros H. destruct x as [fd id t|e| |w]; simpl.
  - destruct (accepted fd a) eqn:Hacc.
    + rewrite (handleRegister_accepted fd id t a Hacc). simpl.
      intros u Hu. apply elem_of_app in Hu as [Hu|Hu]; [apply H, Hu|].
      apply list_elem_of_singleton in Hu. subst u.
      apply accepted_spec in Hacc as (Hn & He & _). simpl.
      repeat split; try assumption; apply trim_idempotent.
    + rewrite handleRegister_rejected by exact Hacc. exact H.
  - destruct (handleLogin_cases e a) as [->|(u & _ & _ & _ & ->)]; exact H.
  - exact H.
  - exact H.
Qed.

Lemma sessionRegistered_act {CF : CaseFolding} (x : Action) (a : App) :
  sessionRegistered a -> sessionRegistered (act x a).
Proof.
  unfold sessionRegistered. intros H. destruct x as [fd id t|e| |w]; simpl.
  - destruct (accepted fd a) eqn:Hacc.
    + rewrite (handleRegister_accepted fd id t a Hacc). unfold me. simpl.
      intros s [= <-]. simpl.
      destruct (find_id_some (users a ++ [newUserOf fd id t])
                  (newUserOf fd id t)) as (u' & Hf & E).
      { apply elem_of_app. right. apply list_elem_of_here. }
      exists u'. split; assumption.
    + rewrite handleRegister_rejected by exact Hacc. exact H.
  - destruct (handleLogin_cases e a) as [->|(u & Hu & _ & _ & ->)]; [exact H|].
    unfold me. simpl. intros s [= <-]. simpl.
    destruct (find_id_some (users a) u Hu) as (u' & Hf & E).
    exists u'. split; assumption.
  - intros s. simpl. discriminate.
  - exact H.
Qed.

Lemma actions_snoc {CF : CaseFolding} (xs : list Action) (x : Action) (a : App) :
  actions (xs ++ [x]) a = act x (actions xs a).
Proof. unfold actions. rewrite fold_left_app. reflexivity. Qed.

(** X7. In every state reached from the empty application by
    registrations, logins, logouts and wallet saves, whatever their inputs,
    no two users have the same email up to case. *)
Theorem reachable_emails_unique {CF : CaseFolding} (xs : list Action) :
  emailsUnique (actions xs initApp).
Proof.
  induction xs as [|x xs IH] using rev_ind.
  - apply NoDup_nil_2.
  - rewrite actions_snoc. apply emailsUnique_act, IH.
Qed.

(** X8. In every such state each user has a stored wallet with all six
    fields: the referral block finds the referrer's wallet and never has to
    make up the object that has a balance only. *)
Theorem reachable_wallets_complete {CF : CaseFolding} (xs : list Action) :
  walletsComplete (actions xs initApp).
Proof.
  induction xs as [|x xs IH] using rev_ind.
  - intros u Hu. inversion Hu.
  - rewrite actions_snoc. apply walletsComplete_act, IH.
Qed.

(** X9. In every such state the name and the email of each user are not
    empty and are their own trim: they have no white space at either end. *)
Theorem reachable_users_trimmed {CF : CaseFolding} (xs : list Action) :
  usersTrimmed (actions xs initApp).
Proof.
  induction xs as [|x xs IH] using rev_ind.
  - intros u Hu. inversion Hu.
  - rewrite actions_snoc. apply usersTrimmed_act, IH.
Qed.

(** X10. In every such state a session is that of a registered user: [me]
    is defined and has the id the session holds. *)
Theorem reachable_session_registered {CF : CaseFolding} (xs : list Action) :
  sessionRegistered (actions xs initApp).
Proof.
  induction xs as [|x xs IH] using rev_ind.
  - intros s. simpl. discriminate.
  - rewrite actions_snoc. apply sessionRegistered_act, IH.
Qed.

(** ** Registration and login together *)

(** X11. After an accepted registration, also after a logout, a login with
    any email that is not empty once trimmed and is the registered one up
    to case and outer white space succeeds and opens the session of the id
    given at registration. *)
Theorem register_then_login {CF : CaseFolding}
    (fd : RegisterForm) (id : string) (t : Z) (a : App) (e : option string) :
  accepted fd a = true ->
  Str.trim (field e) <> "" ->
  toLowerCase (Str.trim (field e)) = toLowerCase (reg_email fd) ->
  let a1 := logout (snd (handleRegister fd id t a)) in
  fst (handleLogin e a1) = None /\
  session (snd (handleLogin e a1)) = Some {| uid := id |} /\
  users (snd (handleLogin e a1)) = users a1 /\
  wallets (snd (handleLogin e a1)) = wallets a1.
Proof.
  intros Hacc Hnz He a1. subst a1.
  rewrite (handleRegister_accepted fd id t a Hacc).
  unfold logout, handleLogin. simpl.
  pose proof (proj1 (accepted_spec fd a) Hacc) as (_ & Hne & _ & Hd).
  assert (Str.isEmpty (Str.trim (field e)) = false) as ->
    by (apply isEmpty_false; exact Hnz).
  rewrite find_newUsers.
  assert (find (sameEmail (Str.trim (field e))) (users a) = None) as ->.
  { apply find_none_iff. intros x Hx.
    destruct (sameEmail (Str.trim (field e)) x) eqn:E; [|reflexivity].
    apply sameEmail_true in E. destruct (Hd x Hx). congruence. }
  assert (sameEmail (Str.trim (field e)) (newUserOf fd id t) = true) as ->.
  { apply sameEmail_true. simpl. symmetry. exact He. }
  simpl. repeat split.
Qed.

Lemma register_then_login_witness :
  let a1 := logout (snd (handleRegister
                           (Sample.form "Budi" "Budi@Mail.com" "rahasia" "")
                           "p0q7z2de" 2000 Sample.one)) in
  fst (handleLogin (Some "  BUDI@mail.COM ") a1) = None /\
  session (snd (handleLogin (Some "  BUDI@mail.COM ") a1))
  = Some {| uid := "p0q7z2de" |} /\
  users (snd (handleLogin (Some "  BUDI@mail.COM ") a1)) = users a1 /\
  wallets (snd (handleLogin (Some "  BUDI@mail.COM ") a1)) = wallets a1.
Proof.
  apply (register_then_login
           (Sample.form "Budi" "Budi@Mail.com" "rahasia" "")
           "p0q7z2de" 2000 Sample.one (Some "  BUDI@mail.COM ")).
  - reflexivity.
  - discriminate.
  - reflexivity.
Defined.

(** X12. After an accepted registration, a second registration whose
    name, email and password are not empty (name and email once trimmed)
    and whose email is the same up to case and outer white space is refused
    with DuplicateEmail, whatever its code, id and time, and changes
    nothing. *)
Theorem second_registration_refused {CF : CaseFolding}
    (fd fd' : RegisterForm) (id id' : string) (t t' : Z) (a : App) :
  accepted fd a = true ->
  reg_name fd' <> "" -> reg_email fd' <> "" -> reg_pass fd' <> "" ->
  toLowerCase (reg_email fd') = toLowerCase (reg_email fd) ->
  let a1 := snd (handleRegister fd id t a) in
  handleRegister fd' id' t' a1 = (Some DuplicateEmail, a1).
Proof.
  intros Hacc Hn Hm Hp He a1. subst a1.
  rewrite (handleRegister_accepted fd id t a Hacc).
  unfold handleRegister.
  fold (reg_name fd') (reg_email fd') (reg_pass fd') (reg_ref fd').
  apply isEmpty_false in Hn, Hm, Hp. rewrite Hn, Hm, Hp.
  simpl.
  assert (existsb (sameEmail (reg_email fd'))
            (users a ++ [newUserOf fd id t]) = true) as ->; [|reflexivity].
  apply existsb_sameEmail. exists (newUserOf fd id t). split.
  - apply elem_of_app. right. apply list_elem_of_here.
  - simpl. symmetry. exact He.
Qed.

Lemma second_registration_refused_witness :
  let a1 := snd (handleRegister (Sample.form "Budi" "budi@mail.com" "rahasia" "")
                   "p0q7z2de" 2000 Sample.one) in
  handleRegister (Sample.form "Budi 2" " BUDI@MAIL.COM" "lain" "Ani")
    "q1w2e3r4" 2500 a1
  = (Some DuplicateEmail, a1).
Proof.
  apply (second_registration_refused
           (Sample.form "Budi" "budi@mail.com" "rahasia" "")
           (Sample.form "Budi 2" " BUDI@MAIL.COM" "lain" "Ani")
           "p0q7z2de" "q1w2e3r4" 2000 2500 Sample.one).
  - reflexivity.
  - discriminate.
  - discriminate.
  - discriminate.
  - reflexivity.
Defined.

Lemma find_id_unique (us : list User.t) (u : User.t) :
  NoDup (map User.id us) -> u ∈ us ->
  find (fun x => String.eqb (User.id x) (User.id u)) us = Some u.
Proof.
  induction us as [|y us IH]; intros Hnd Hin; [inversion Hin|].
  simpl in *. apply NoDup_cons in Hnd as [Hy Hnd].
  apply elem_of_cons in Hin as [->|Hin].
  - rewrite String.eqb_refl. reflexivity.
  - destruct (String.eqb (User.id y) (User.id u)) eqn:E.
    + apply String.eqb_eq in E. destruct Hy. rewrite E.
      apply list_elem_of_fmap. exists u. split; [reflexivity | exact Hin].
    + apply IH; assumption.
Qed.

(** X13. When the users have distinct ids, a login that succeeds makes
    [me] the first user whose email is the entered one up to case. *)
Theorem login_sets_current_user {CF : CaseFolding} (e : option string) (a : App) (u : User.t) :
  NoDup (map User.id (users a)) ->
  Str.trim (field e) <> "" ->
  find (sameEmail (Str.trim (field e))) (users a) = Some u ->
  fst (handleLogin e a) = None /\
  me (snd (handleLogin e a)) = Some u /\
  toLowerCase (User.email u) = toLowerCase (Str.trim (field e)).
Proof.
  intros Hnd Hne Hf. unfold handleLogin.
  apply isEmpty_false in Hne. rewrite Hne, Hf. unfold me. simpl.
  pose proof (find_some _ _ Hf) as [Hin Hp].
  repeat split.
  - apply find_id_unique; [exact Hnd | apply list_elem_of_In, Hin].
  - apply sameEmail_true, Hp.
Qed.

Lemma login_sets_current_user_witness :
  fst (handleLogin (Some "ANI2@mail.com") Sample.three) = None /\
  me (snd (handleLogin (Some "ANI2@mail.com") Sample.three)) = Some Sample.ani2 /\
  toLowerCase (User.email Sample.ani2)
  = toLowerCase (Str.trim (field (Some "ANI2@mail.com"))).
Proof.
  apply (login_sets_current_user (Some "ANI2@mail.com") Sample.three Sample.ani2).
  - repeat (apply NoDup_cons; split;
            [vm_compute; intros H;
             repeat (apply elem_of_cons in H as [H|H]; [discriminate|]);
             inversion H|]).
    apply NoDup_nil_2.
  - discriminate.
  - reflexivity.
Defined.

(** X14. After an accepted registration with an id that no user has, [me]
    is the user just created, the first page is the dashboard, and the
    users registered before are all still there, in their order and
    unchanged, before the new one. *)
Theorem register_sets_current_user {CF : CaseFolding}
    (fd : RegisterForm) (id : string) (t : Z) (a : App) :
  accepted fd a = true -> freshId id (users a) = true ->
  let a1 := snd (handleRegister fd id t a) in
  me a1 = Some (newUserOf fd id t) /\
  users a1 = (users a ++ [newUserOf fd id t])%list /\
  Url.path (hash a1) = "#/dashboard".
Proof.
  intros Hacc Hfresh a1. subst a1.
  rewrite (handleRegister_accepted fd id t a Hacc).
  unfold me. simpl. rewrite find_newUsers.
  assert (find (fun u => String.eqb (User.id u) id) (users a) = None) as ->.
  { apply find_none_iff. intros x Hx. apply String.eqb_neq.
    apply (proj1 (freshId_spec _ _) Hfresh x Hx). }
  simpl. rewrite String.eqb_refl. repeat split.
Qed.

Lemma register_sets_current_user_witness :
  let a1 := snd (handleRegister (Sample.form "Budi" "budi@mail.com" "rahasia" "")
                   "p0q7z2de" 2000 Sample.one) in
  me a1 = Some (newUserOf (Sample.form "Budi" "budi@mail.com" "rahasia" "")
                  "p0q7z2de" 2000) /\
  users a1 = [Sample.ani;
              newUserOf (Sample.form "Budi" "budi@mail.com" "rahasia" "")
                "p0q7z2de" 2000] /\
  Url.path (hash a1) = "#/dashboard".
Proof.
  apply (register_sets_current_user
           (Sample.form "Budi" "budi@mail.com" "rahasia" "")
           "p0q7z2de" 2000 Sample.one); reflexivity.
Defined.

(** ** The route and the referral link *)

Lemma append_cons (c : ascii) (s r : string) :
  String c s ++ r = String c (s ++ r).
Proof. reflexivity. Qed.

Lemma contains_app (c : ascii) (s r : string) :
  Url.contains c (s ++ r) = Url.contains c s || Url.contains c r.
Proof.
  induction s as [|d s IH]; [reflexivity|].
  rewrite append_cons. simpl. rewrite IH. apply orb_assoc.
Qed.

Lemma split_no_sep (sep : ascii) (s : string) :
  Url.contains sep s = false -> Url.split sep s = [s].
Proof.
  induction s as [|c s IH]; simpl; [reflexivity|].
  intros H. apply orb_false_iff in H as [Hc Hs].
  rewrite Hc, (IH Hs). reflexivity.
Qed.

Lemma split_app_sep (sep : ascii) (p q : string) :
  Url.contains sep p = false ->
  Url.split sep (p ++ String sep q) = p :: Url.split sep q.
Proof.
  induction p as [|c p IH]; intros H.
  - simpl. rewrite Ascii.eqb_refl. reflexivity.
  - rewrite append_cons. simpl in *. apply orb_false_iff in H as [Hc Hp].
    rewrite Hc, (IH Hp). reflexivity.
Qed.

Lemma split_head_no_sep (sep : ascii) (s : string) :
  Url.contains sep (default "" (Url.split sep s !! 0%nat)) = false.
Proof.
  induction s as [|c s IH]; simpl; [reflexivity|].
  destruct (Ascii.eqb c sep) eqn:E; [reflexivity|].
  destruct (Url.split sep s) as [|h t]; simpl in *.
  - rewrite E. reflexivity.
  - rewrite E, IH. reflexivity.
Qed.

(** X15. The route is the hash up to its first question mark: it contains
    none, a hash without one is its own route, and a query added after a
    route without one does not change it. *)
Theorem path_is_hash_before_query (hash q : string) :
  Url.contains "?" (Url.path hash) = false /\
  (Url.contains "?" hash = false -> Url.path hash = hash) /\
  Url.path (Url.path hash ++ String "?" q) = Url.path hash.
Proof.
  unfold Url.path. split; [apply split_head_no_sep|]. split.
  - intros H. rewrite (split_no_sep _ _ H). reflexivity.
  - rewrite split_app_sep by apply split_head_no_sep. reflexivity.
Qed.

Lemma path_is_hash_before_query_witness :
  Url.path "#/dashboard" = "#/dashboard".
Proof.
  apply (proj1 (proj2 (path_is_hash_before_query "#/dashboard" ""))).
  reflexivity.
Defined.

(** What [encodeURIComponent] writes for one byte is free of the
    characters that structure a hash and a query. *)
Lemma encodeByte_safe (c : ascii) :
  Url.contains "?" (Url.encodeByte c) = false /\
  Url.contains "&" (Url.encodeByte c) = false /\
  Url.contains "=" (Url.encodeByte c) = false /\
  Url.contains "#" (Url.encodeByte c) = false /\
  Url.contains "+" (Url.encodeByte c) = false.
Proof.
  destruct c as [[] [] [] [] [] [] [] []]; vm_compute; repeat split.
Qed.

Lemma encodeURIComponent_safe (s : string) :
  Url.contains "?" (Url.encodeURIComponent s) = false /\
  Url.contains "&" (Url.encodeURIComponent s) = false /\
  Url.contains "=" (Url.encodeURIComponent s) = false /\
  Url.contains "#" (Url.encodeURIComponent s) = false /\
  Url.contains "+" (Url.encodeURIComponent s) = false.
Proof.
  induction s as [|c s (I1 & I2 & I3 & I4 & I5)]; simpl;
    [repeat split|].
  destruct (encodeByte_safe c) as (H1 & H2 & H3 & H4 & H5).
  rewrite !contains_app, H1, H2, H3, H4, H5, I1, I2, I3, I4, I5.
  repeat split.
Qed.

Lemma percentDecode_encodeByte (c : ascii) (r : string) :
  Url.percentDecode (Url.encodeByte c ++ r) = String c (Url.percentDecode r).
Proof.
  destruct c as [[] [] [] [] [] [] [] []]; reflexivity.
Qed.

Lemma percentDecode_encodeURIComponent (s : string) :
  Url.percentDecode (Url.encodeURIComponent s) = s.
Proof.
  induction s as [|c s IH]; [reflexivity|].
  simpl Url.encodeURIComponent. rewrite percentDecode_encodeByte, IH.
  reflexivity.
Qed.

Lemma plusToSpace_id (s : string) :
  Url.contains "+" s = false -> Url.plusToSpace s = s.
Proof.
  induction s as [|c s IH]; simpl; [reflexivity|].
  intros H. apply orb_false_iff in H as [Hc Hs].
  rewrite Hc, (IH Hs). reflexivity.
Qed.

Lemma nameValue_no_eq (s : string) :
  Url.contains "=" s = false -> Url.nameValue s = (s, "").
Proof.
  induction s as [|c s IH]; simpl; [reflexivity|].
  intros H. apply orb_false_iff in H as [Hc Hs].
  rewrite Hc, (IH Hs). reflexivity.
Qed.

Lemma refFromUrl_of_ref (name : string) :
  Url.path ("#/reg?ref=" ++ Url.encodeURIComponent name) = "#/reg" /\
  Url.refFromUrl ("#/reg?ref=" ++ Url.encodeURIComponent name) = name.
Proof.
  destruct (encodeURIComponent_safe name) as (H1 & H2 & H3 & H4 & H5).
  assert (Url.split "?" ("#/reg?ref=" ++ Url.encodeURIComponent name)
          = ["#/reg"; "ref=" ++ Url.encodeURIComponent name]) as Hs.
  { change ("#/reg?ref=" ++ Url.encodeURIComponent name)
      with ("#/reg" ++ String "?" ("ref=" ++ Url.encodeURIComponent name)).
    rewrite split_app_sep by reflexivity.
    rewrite split_no_sep; [reflexivity|].
    rewrite contains_app, H1. reflexivity. }
  unfold Url.path, Url.refFromUrl, Url.params. rewrite Hs. simpl.
  split; [reflexivity|].
  unfold Url.URLSearchParams.
  change ("ref=" ++ Url.encodeURIComponent name)
    with (String "r" ("ef=" ++ Url.encodeURIComponent name)).
  cbv iota beta.
  rewrite split_no_sep
    by (change (String "r" ("ef=" ++ Url.encodeURIComponent name))
          with ("ref=" ++ Url.encodeURIComponent name);
        rewrite contains_app, H2; reflexivity).
  simpl. change ("" ++ Url.encodeURIComponent name)
    with (Url.encodeURIComponent name).
  rewrite (plusToSpace_id _ H5), percentDecode_encodeURIComponent.
  reflexivity.
Qed.

Lemma fragment_app (p x : string) :
  Url.contains "#" p = false -> Url.fragment (p ++ String "#" x) = Some x.
Proof.
  induction p as [|c p IH]; intros H.
  - reflexivity.
  - rewrite append_cons. simpl in *. apply orb_false_iff in H as [Hc Hp].
    rewrite Hc. apply IH, Hp.
Qed.

Lemma referralLink_hash (href : string) (u : User.t) :
  Url.hashState (Url.locationHash (Url.referralLink href (Some u)))
  = "#/reg?ref=" ++ Url.encodeURIComponent (User.name u).
Proof.
  unfold Url.referralLink, Url.locationHash.
  change ("#/reg?ref=" ++ Url.encodeURIComponent (User.name u))
    with (String "#" ("/reg?ref=" ++ Url.encodeURIComponent (User.name u))).
  rewrite fragment_app by apply split_head_no_sep.
  reflexivity.
Qed.

(** X16. Round trip of the referral link. Whatever the address of the page
    and the name of the current user, the location hash of the user's
    referral link has the route [#/reg], its [ref] parameter decodes to
    exactly the name, and the pre-fill effect puts the name in the referral
    field. *)
Theorem referral_link_roundtrip (href : string) (u : User.t) (regRef : string) :
  let hash := Url.hashState (Url.locationHash (Url.referralLink href (Some u))) in
  hash = "#/reg?ref=" ++ Url.encodeURIComponent (User.name u) /\
  Url.path hash = "#/reg" /\
  Url.refFromUrl hash = User.name u /\
  Url.prefill hash regRef = User.name u.
Proof.
  intros hash. subst hash. rewrite referralLink_hash.
  destruct (refFromUrl_of_ref (User.name u)) as [Hp Hr].
  unfold Url.prefill. rewrite Hp, Hr. repeat split.
Qed.

(** X17. From link to credit. In a state whose users have trimmed names,
    let [u] be the first user that the name of [u] designates (no earlier
    user has it as name, email or id). An accepted registration, under a
    fresh id, whose referral field is what the pre-fill effect makes of the
    referral link of [u], raises the balance of the stored wallet of [u] by
    0.01 and leaves its [totalMined]. *)
Theorem referral_link_credits_owner {CF : CaseFolding}
    (href : string) (fd : RegisterForm) (id : string) (t : Z) (a : App)
    (l1 l2 : list User.t) (u : User.t) :
  usersTrimmed a ->
  accepted fd a = true ->
  freshId id (users a) = true ->
  users a = (l1 ++ u :: l2)%list ->
  (forall x, x ∈ l1 -> isReferrer (User.name u) x = false) ->
  fd_ref fd
  = Some (Url.prefill
            (Url.hashState (Url.locationHash (Url.referralLink href (Some u))))
            "") ->
  let a' := snd (handleRegister fd id t a) in
  (balanceAt (wallets a') (KEYS_wallet (User.id u))
   == balanceAt (wallets a) (KEYS_wallet (User.id u)) + 0.01)%Q /\
  wallets a' !! KEYS_wallet (User.id u) ≫= objTotalMined
  = wallets a !! KEYS_wallet (User.id u) ≫= objTotalMined /\
  User.referrer (newUserOf fd id t) = Some (User.name u).
Proof.
  intros Htrim Hacc Hfresh Hl Hl1 Href a'. subst a'.
  assert (u ∈ users a) as Hin
    by (rewrite Hl; apply elem_of_app; right; apply list_elem_of_here).
  destruct (Htrim u Hin) as (Hne & _ & Hts & _).
  assert (reg_ref fd = User.name u) as Hr.
  { unfold reg_ref. rewrite Href.
    match goal with |- Str.trim (field (Some ?x)) = _ =>
      change (field (Some x)) with x end.
    unfold Url.prefill. rewrite referralLink_hash.
    destruct (refFromUrl_of_ref (User.name u)) as [-> ->]. simpl. exact Hts. }
  rewrite (handleRegister_accepted fd id t a Hacc). simpl. rewrite Hr.
  assert (isReferrer (User.name u) u = true) as Hu
    by (apply isReferrer_spec; left; reflexivity).
  assert (find (isReferrer (User.name u)) (users a ++ [newUserOf fd id t])
          = Some u) as Hf.
  { rewrite find_newUsers, Hl, (find_first _ _ _ _ Hl1 Hu). reflexivity. }
  rewrite (referralReward_found _ _ _ u Hne Hf).
  pose proof (proj1 (freshId_spec _ _) Hfresh u Hin) as Hid.
  assert (KEYS_wallet id <> KEYS_wallet (User.id u)) as Hk
    by (intros E; apply KEYS_wallet_inj in E; congruence).
  unfold balanceAt. rewrite lookup_insert_eq, lookup_insert_ne by exact Hk.
  simpl. split; [apply creditReferral_balance|]. split.
  - rewrite creditReferral_totalMined.
    destruct (wallets a !! KEYS_wallet (User.id u)); reflexivity.
  - apply isEmpty_false in Hne. rewrite Hne. reflexivity.
Qed.

Lemma referral_link_credits_owner_witness :
  let fd := {| fd_name := Some "Citra"; fd_email := Some "citra@mail.com";
               fd_password := Some "rahasia";
               fd_ref := Some (Url.prefill
                                 (Url.hashState
                                    (Url.locationHash
                                       (Url.referralLink
                                          "https://nickt.example/#/dashboard"
                                          (Some Sample.budi))))
                                 "") |} in
  let a' := snd (handleRegister fd "z9y8x7wv" 4000 Sample.three) in
  (balanceAt (wallets a') (KEYS_wallet "p0q7z2de")
   == balanceAt (wallets Sample.three) (KEYS_wallet "p0q7z2de") + 0.01)%Q /\
  wallets a' !! KEYS_wallet "p0q7z2de" ≫= objTotalMined
  = wallets Sample.three !! KEYS_wallet "p0q7z2de" ≫= objTotalMined /\
  User.referrer (newUserOf fd "z9y8x7wv" 4000) = Some "Budi".
Proof.
  apply (referral_link_credits_owner "https://nickt.example/#/dashboard"
           _ "z9y8x7wv" 4000 Sample.three [Sample.ani] [Sample.ani2]
           Sample.budi).
  - intros x Hx.
    repeat (apply elem_of_cons in Hx as [->|Hx];
            [repeat split; try discriminate; reflexivity|]).
    inversion Hx.
  - reflexivity.
  - reflexivity.
  - reflexivity.
  - intros x Hx. apply list_elem_of_singleton in Hx. subst x. reflexivity.
  - reflexivity.
Defined.

(** ** Class names *)

Lemma string_app_assoc (a b c : string) : (a ++ b) ++ c = a ++ (b ++ c).
Proof.
  induction a as [|x a IH]; [reflexivity|].
  rewrite !append_cons, IH. reflexivity.
Qed.

Lemma concat_cons2 (sep x y : string) (l : list string) :
  String.concat sep (x :: y :: l) = x ++ sep ++ String.concat sep (y :: l).
Proof. reflexivity. Qed.

Lemma concat_app_nonempty (sep : string) (l1 l2 : list string) :
  l1 <> [] -> l2 <> [] ->
  String.concat sep (l1 ++ l2)
  = String.concat sep l1 ++ sep ++ String.concat sep l2.
Proof.
  intros H1 H2. induction l1 as [|x l1 IH]; [congruence|].
  destruct l1 as [|y l1].
  - destruct l2 as [|z l2]; [congruence|]. reflexivity.
  - change ((x :: y :: l1) ++ l2)%list with (x :: y :: (l1 ++ l2))%list.
    rewrite !concat_cons2.
    change (y :: (l1 ++ l2))%list with ((y :: l1) ++ l2)%list.
    rewrite IH by discriminate. rewrite !string_app_assoc. reflexivity.
Qed.

Lemma truthy_nonempty (c : list (option string)) (x : string) :
  x ∈ omap truthy c -> x <> "".
Proof.
  intros H. apply list_elem_of_omap in H as (v & _ & Hv).
  destruct v as [s|]; simpl in Hv; [|discriminate].
  destruct s; simpl in Hv; [discriminate|]. injection Hv as <-. discriminate.
Qed.

Lemma concat_empty (sep : string) (l : list string) :
  (forall x, x ∈ l -> x <> "") -> String.concat sep l = "" -> l = [].
Proof.
  intros H E. destruct l as [|x l]; [reflexivity|].
  assert (x <> "") as Hx by (apply H, list_elem_of_here).
  destruct x as [|c x]; [congruence|].
  destruct l; simpl in E; discriminate.
Qed.

Lemma cn_unfold (c : list (option string)) :
  cn c = String.concat " " (omap truthy c).
Proof. reflexivity. Qed.

(** X18. [cn] only sees the arguments that are non-empty strings: its
    result is empty exactly when there is none, and joining two results of
    [cn] with [cn] is the same as calling it once on all the arguments, so
    that no separator is ever written for a missing class. *)
Theorem cn_flattens (c1 c2 : list (option string)) :
  cn (c1 ++ c2) = cn [Some (cn c1); Some (cn c2)] /\
  (cn c1 = "" <-> forall v, v ∈ c1 -> v = None \/ v = Some "").
Proof.
  assert (forall c, cn c = "" <-> omap truthy c = []) as Hemp.
  { intros c. rewrite cn_unfold. split.
    - apply concat_empty. apply truthy_nonempty.
    - intros ->. reflexivity. }
  split.
  - rewrite (cn_unfold (c1 ++ c2)), omap_app.
    rewrite (cn_unfold [Some (cn c1); Some (cn c2)]).
    pose proof (cn_unfold c1) as A1. pose proof (cn_unfold c2) as A2.
    pose proof (truthy_nonempty c1) as N1.
    pose proof (truthy_nonempty c2) as N2.
    destruct (omap truthy c1) as [|x l1];
      destruct (omap truthy c2) as [|y l2].
    + rewrite A1, A2. reflexivity.
    + rewrite A1, A2. simpl app.
      destruct (String.concat " " (y :: l2)) eqn:Ec; [|reflexivity].
      apply concat_empty in Ec; [discriminate | exact N2].
    + rewrite A1, A2, app_nil_r.
      destruct (String.concat " " (x :: l1)) eqn:Ec; [|reflexivity].
      apply concat_empty in Ec; [discriminate | exact N1].
    + rewrite concat_app_nonempty by discriminate. rewrite A1, A2.
      destruct (String.concat " " (x :: l1)) eqn:Ec1.
      { apply concat_empty in Ec1; [discriminate | exact N1]. }
      destruct (String.concat " " (y :: l2)) eqn:Ec2.
      { apply concat_empty in Ec2; [discriminate | exact N2]. }
      reflexivity.
  - rewrite Hemp. split.
    + intros E v Hv. destruct v as [s|]; [|left; reflexivity].
      right. destruct s as [|a s]; [reflexivity|].
      assert (String a s ∈ omap truthy c1) as Hin
        by (apply list_elem_of_omap; exists (Some (String a s)); split;
            [exact Hv | reflexivity]).
      rewrite E in Hin. inversion Hin.
    + intros H. destruct (omap truthy c1) as [|x l] eqn:E; [reflexivity|].
      assert (x ∈ omap truthy c1) as Hin by (rewrite E; apply list_elem_of_here).
      pose proof (truthy_nonempty _ _ Hin) as Hx.
      apply list_elem_of_omap in Hin as (v & Hv & Hf).
      destruct (H v Hv) as [-> | ->]; simpl in Hf; discriminate.
Qed.

(** ** The wallet between storage and state *)

(** X19. A change of user, for any wallet left in memory by the previous
    session: once the effects have run, the state holds the stored wallet
    of the new current user (the zeroed one when none is stored), storage
    holds that same wallet under the user's key, and no other key has
    changed; the wallet of the previous session is not left in storage
    under the new user's key. *)
Theorem session_change_loads_own_wallet
    (a : App) (stale : option WalletObj) (u : User.t) :
  me a = Some u ->
  let w := default (AllFields newWallet) (wallets a !! KEYS_wallet (User.id u)) in
  snd (afterSessionChange a stale) = Some w /\
  wallets (fst (afterSessionChange a stale)) !! KEYS_wallet (User.id u) = Some w /\
  (forall k, k <> KEYS_wallet (User.id u) ->
     wallets (fst (afterSessionChange a stale)) !! k = wallets a !! k) /\
  users (fst (afterSessionChange a stale)) = users a /\
  session (fst (afterSessionChange a stale)) = session a.
Proof.
  intros Hme w. unfold afterSessionChange, loadWallet, persistWallet.
  rewrite !me_withWallets, Hme. simpl. subst w.
  repeat split.
  - apply lookup_insert_eq.
  - intros k Hk. rewrite lookup_insert_ne by congruence.
    destruct stale; simpl; [rewrite lookup_insert_ne by congruence|];
      reflexivity.
Qed.

Lemma session_change_loads_own_wallet_witness :
  let a := snd (handleLogin (Some "budi@mail.com") Sample.three) in
  let stale := Some (AllFields (mkWallet 7 9 1000 12.5 true 1)) in
  snd (afterSessionChange a stale) = Some (AllFields newWallet) /\
  wallets (fst (afterSessionChange a stale)) !! KEYS_wallet "p0q7z2de"
  = Some (AllFields newWallet) /\
  (forall k, k <> KEYS_wallet "p0q7z2de" ->
     wallets (fst (afterSessionChange a stale)) !! k = wallets a !! k) /\
  users (fst (afterSessionChange a stale)) = users a /\
  session (fst (afterSessionChange a stale)) = session a.
Proof.
  pose proof (session_change_loads_own_wallet
                (snd (handleLogin (Some "budi@mail.com") Sample.three))
                (Some (AllFields (mkWallet 7 9 1000 12.5 true 1)))
                Sample.budi) as H.
  cbv zeta in *. apply H. reflexivity.
Defined.

(** ** What is shown *)

Lemma handleLogin_ok {CF : CaseFolding} (e : option string) (a : App) :
  fst (handleLogin e a) = None ->
  exists u, u ∈ users a /\
            handleLogin e a
            = (None, {| users := users a; session := Some {| uid := User.id u |};
                        wallets := wallets a; hash := "#/dashboard" |}).
Proof.
  unfold handleLogin.
  destruct (Str.isEmpty (Str.trim (field e))); [discriminate|].
  destruct (find _ _) as [u|] eqn:Hf; [|discriminate].
  intros _. exists u. split; [|reflexivity].
  apply find_some in Hf as [Hin _]. apply list_elem_of_In, Hin.
Qed.

(** X20. Success lands on the dashboard. After an accepted registration
    (whatever the id) and after a login without alert, once the effects of
    the change of user have run, the dashboard is what is rendered, for any
    wallet the previous session left in memory. *)
Theorem success_shows_dashboard {CF : CaseFolding}
    (a : App) (stale : option WalletObj)
    (fd : RegisterForm) (id : string) (t : Z) (e : option string) :
  (accepted fd a = true ->
   screen (fst (afterSessionChange (snd (handleRegister fd id t a)) stale))
          (snd (afterSessionChange (snd (handleRegister fd id t a)) stale))
   = Some VDashboard) /\
  (fst (handleLogin e a) = None ->
   screen (fst (afterSessionChange (snd (handleLogin e a)) stale))
          (snd (afterSessionChange (snd (handleLogin e a)) stale))
   = Some VDashboard).
Proof.
  split.
  - intros Hacc.
    destruct (find_id_some (users a ++ [newUserOf fd id t])
                (newUserOf fd id t)) as (u' & Hf & _).
    { apply elem_of_app. right. apply list_elem_of_here. }
    rewrite (handleRegister_accepted fd id t a Hacc).
    unfold screen, afterSessionChange, loadWallet, me. simpl.
    simpl in Hf. rewrite Hf. reflexivity.
  - intros Hok.
    destruct (handleLogin_ok e a Hok) as (u & Hu & E).
    rewrite E.
    destruct (find_id_some (users a) u Hu) as (u' & Hf & _).
    unfold screen, afterSessionChange, loadWallet, me. simpl.
    rewrite Hf. reflexivity.
Qed.

Lemma success_shows_dashboard_witness :
  screen (fst (afterSessionChange
                 (snd (handleRegister
                         (Sample.form "Budi" "budi@mail.com" "rahasia" "")
                         "p0q7z2de" 2000 Sample.one)) None))
         (snd (afterSessionChange
                 (snd (handleRegister
                         (Sample.form "Budi" "budi@mail.com" "rahasia" "")
                         "p0q7z2de" 2000 Sample.one)) None))
  = Some VDashboard /\
  screen (fst (afterSessionChange
                 (snd (handleLogin (Some "ani@mail.com") Sample.one)) None))
         (snd (afterSessionChange
                 (snd (handleLogin (Some "ani@mail.com") Sample.one)) None))
  = Some VDashboard.
Proof.
  split.
  - apply (proj1 (success_shows_dashboard Sample.one None
                    (Sample.form "Budi" "budi@mail.com" "rahasia" "")
                    "p0q7z2de" 2000 None)).
    reflexivity.
  - apply (proj2 (success_shows_dashboard Sample.one None
                    (Sample.form "Budi" "budi@mail.com" "rahasia" "")
                    "p0q7z2de" 2000 (Some "ani@mail.com"))).
    reflexivity.
Defined.

(** X21. Logged out, no dashboard. After a logout the home page is
    rendered, and as long as there is no session no location hash renders
    the dashboard, whatever wallet is still in memory; a refused login or
    registration leaves the rendered view as it was. *)
Theorem logged_out_never_shows_dashboard {CF : CaseFolding}
    (a : App) (wallet : option WalletObj) :
  screen (logout a) wallet = Some VHome /\
  (session a = None ->
   forall h : string, view (Url.path (Url.hashState h)) (me a) wallet
                      <> Some VDashboard) /\
  (forall e, fst (handleLogin e a) <> None ->
             screen (snd (handleLogin e a)) wallet = screen a wallet) /\
  (forall fd id t, fst (handleRegister fd id t a) <> None ->
             screen (snd (handleRegister fd id t a)) wallet = screen a wallet).
Proof.
  split; [reflexivity|]. split; [|split].
  - intros Hs h. unfold me, view. rewrite Hs.
    repeat (destruct (String.eqb _ _); [discriminate|]). discriminate.
  - intros e H.
    destruct (handleLogin_cases e a) as [->|(u & _ & _ & _ & E)];
      [reflexivity|].
    rewrite E in H. destruct (H eq_refl).
  - intros fd id t H. destruct (accepted fd a) eqn:Hacc.
    + rewrite (handleRegister_accepted fd id t a Hacc) in H.
      destruct (H eq_refl).
    + rewrite handleRegister_rejected by exact Hacc. reflexivity.
Qed.

Lemma logged_out_never_shows_dashboard_witness :
  screen (logout Sample.three) (Some (AllFields newWallet)) = Some VHome /\
  view (Url.path (Url.hashState "#/dashboard?x=1")) (me Sample.three)
       (Some (AllFields newWallet)) <> Some VDashboard.
Proof.
  split.
  - apply (proj1 (logged_out_never_shows_dashboard Sample.three
                    (Some (AllFields newWallet)))).
  - apply (proj1 (proj2 (logged_out_never_shows_dashboard Sample.three
                           (Some (AllFields newWallet))))).
    reflexivity.
Defined.

(** ** What is never taken away *)

Lemma step_balance_mono (e : Event) (s : Dash) :
  (0 <= earned (miner s))%Q -> e <> Withdraw ->
  (balance (wallet s) <= balance (wallet (step e s)))%Q.
Proof.
  intros He Hw.
  destruct e as [tnow| |t|t| |t1 t2|]; simpl.
  - destruct (mining (wallet s)); simpl; lra.
  - lra.
  - destruct (mining (wallet s)); simpl; lra.
  - destruct (mining (wallet s)); simpl; lra.
  - congruence.
  - unfold klaimSekarang.
    destruct (t1 - lastBonus (wallet s) <? DAY)%Z; simpl; lra.
  - pose proof (orZero_eq (balance (wallet s))). lra.
Qed.

(** X22. As long as [earned] is not negative, no event other than the
    withdrawal lowers the balance: ticks, start and stop keep it, a flush,
    a granted bonus and a referral credit raise it or keep it. [earned] is
    not negative in the states reached without a tick that reads the clock
    earlier than the cursor; once the clock has been set back far enough
    for [earned] to be negative, a flush lowers the balance. *)
Theorem balance_only_lowered_by_withdraw (s : Dash) :
  ((0 <= earned (miner s))%Q ->
   forall e : Event,
     e <> Withdraw -> (balance (wallet s) <= balance (wallet (step e s)))%Q) /\
  (reachable s -> (0 <= earned (miner s))%Q) /\
  ((earned (miner s) < 0)%Q ->
   (balance (wallet (step Flush s)) < balance (wallet s))%Q).
Proof.
  split; [|split].
  - intros He e Hw. apply step_balance_mono; assumption.
  - intros Hr. apply (reachable_inv s Hr).
  - intros Hneg. simpl. lra.
Qed.

Lemma balance_only_lowered_by_withdraw_witness :
  let s := step Flush (step (Stop 1500) (step (Tick 1000)
             (step (MulaiMining 0) (initDash 0)))) in
  let s' := step (Tick 0) (step (MulaiMining 1000) (initDash 0)) in
  (balance (wallet s) <= balance (wallet (step Flush s)))%Q /\
  (balance (wallet s)
   <= balance (wallet (step (KlaimSekarang 90000000 90000000) s)))%Q /\
  (balance (wallet (step Flush s')) < balance (wallet s'))%Q.
Proof.
  split; [|split].
  - apply (proj1 (balance_only_lowered_by_withdraw
                    (step Flush (step (Stop 1500) (step (Tick 1000)
                       (step (MulaiMining 0) (initDash 0))))))).
    + vm_compute. discriminate.
    + discriminate.
  - apply (proj1 (balance_only_lowered_by_withdraw
                    (step Flush (step (Stop 1500) (step (Tick 1000)
                       (step (MulaiMining 0) (initDash 0))))))).
    + vm_compute. discriminate.
    + discriminate.
  - apply (proj2 (proj2 (balance_only_lowered_by_withdraw
                           (step (Tick 0) (step (MulaiMining 1000)
                              (initDash 0)))))).
    reflexivity.
Defined.

Lemma referralReward_keeps_keys (ref : string) (us : list User.t)
    (ws : gmap string WalletObj) (k : string) :
  is_Some (ws !! k) -> is_Some (referralReward ref us ws !! k).
Proof.
  intros H. unfold referralReward.
  destruct (Str.isEmpty ref); [exact H|].
  destruct (find (isReferrer ref) us) as [r|]; [|exact H].
  simpl. rewrite lookup_insert. case_decide; [eauto | exact H].
Qed.

Lemma act_keeps_accounts {CF : CaseFolding} (x : Action) (a : App) :
  (exists l, users (act x a) = (users a ++ l)%list) /\
  forall k, is_Some (wallets a !! k) -> is_Some (wallets (act x a) !! k).
Proof.
  destruct x as [fd id t|e| |w]; simpl.
  - destruct (accepted fd a) eqn:Hacc.
    + rewrite (handleRegister_accepted fd id t a Hacc). simpl. split; [eauto|].
      intros k Hk. apply referralReward_keeps_keys.
      rewrite lookup_insert. case_decide; [eauto | exact Hk].
    + rewrite handleRegister_rejected by exact Hacc.
      split; [exists []; symmetry; apply app_nil_r | auto].
  - destruct (handleLogin_cases e a) as [->|(u & _ & _ & _ & ->)]; simpl;
      (split; [exists []; symmetry; apply app_nil_r | auto]).
  - split; [exists []; symmetry; apply app_nil_r | auto].
  - split; [exists []; symmetry; apply app_nil_r |].
    intros k Hk. unfold persistWallet.
    destruct (me a); simpl; [|exact Hk].
    rewrite lookup_insert. case_decide; [eauto | exact Hk].
Qed.

(** X23. No sequence of registrations, logins, logouts and wallet saves
    removes or alters an account: the users of the starting state stay at
    the head of the list, in their order and with their fields, and every
    wallet key that was stored is still stored. *)
Theorem accounts_are_never_removed {CF : CaseFolding} (xs : list Action) (a : App) :
  (exists l, users (actions xs a) = (users a ++ l)%list) /\
  forall k, is_Some (wallets a !! k) -> is_Some (wallets (actions xs a) !! k).
Proof.
  induction xs as [|x xs [[l IHu] IHw]] using rev_ind.
  - split; [exists []; symmetry; apply app_nil_r | auto].
  - rewrite actions_snoc.
    destruct (act_keeps_accounts x (actions xs a)) as [[l' Hu] Hw].
    split.
    + exists (l ++ l')%list. rewrite Hu, IHu, app_assoc. reflexivity.
    + intros k Hk. apply Hw, IHw, Hk.
Qed.

Lemma accounts_are_never_removed_witness :
  is_Some (wallets (actions
                      [Register (Sample.form "Budi" "b@mail.com" "x" "Ani")
                         "p0q7z2de" 5000;
                       Logout; Login (Some "ani@mail.com");
                       SaveWallet (mkWallet 3 4 0 12.5 true 1)]
                      Sample.one) !! KEYS_wallet "k3x9a1bc").
Proof.
  apply (proj2 (accounts_are_never_removed
                  [Register (Sample.form "Budi" "b@mail.com" "x" "Ani")
                     "p0q7z2de" 5000;
                   Logout; Login (Some "ani@mail.com");
                   SaveWallet (mkWallet 3 4 0 12.5 true 1)]
                  Sample.one)).
  vm_compute. eauto.
Defined.
